(** * The block state processor of core/state_processor.go

    A shallow embedding of [Process], [ApplyTransaction],
    [AccumulateRewards] and [getBlockEra], and the properties of the
    block-level loop, the receipts it builds and the reward schedule.

    Go pointers to [big.Int] that the code only reads are embedded as
    their [Z] value; the [big.Int] variables that the code writes in
    place live in a store ([big.store]).  Objects mutated through a
    pointer ([*state.StateDB], [*GasPool], the running gas total) are
    passed in and returned.  A run-time panic is [None]. *)

From Stdlib Require Import String Ascii DecimalString.
From Stdlib Require Import ZArith List Bool Lia.
Import ListNotations.

Local Open Scope string_scope.
Local Open Scope list_scope.
Local Open Scope Z_scope.

(** ** Byte arrays of package common *)

(** [common.Address] is [[20]byte], [common.Hash] is [[32]byte],
    [types.Bloom] is [[256]byte]. *)
Definition Address := list Byte.byte.
Definition Hash := list Byte.byte.
Definition Bloom := list Byte.byte.

(** The zero values of the array types. *)
Definition zeroAddress : Address := repeat Byte.x00 20.
Definition zeroBloom : Bloom := repeat Byte.x00 256.

(** ** [math/big]: integers updated in place *)

Module big.

(** The [*big.Int] variables that state_processor.go writes to or
    declares: the package-level [var] block and the two scratch
    integers of [AccumulateRewards]. *)
Inductive var : Set :=
| MaximumBlockReward
| big8
| big32
| reward
| r.

(** The integers these variables point to. *)
Record store : Set := mkStore {
  at_MaximumBlockReward : Z;
  at_big8 : Z;
  at_big32 : Z;
  at_reward : Z;
  at_r : Z
}.

Definition get (s : store) (v : var) : Z :=
  match v with
  | MaximumBlockReward => at_MaximumBlockReward s
  | big8 => at_big8 s
  | big32 => at_big32 s
  | reward => at_reward s
  | r => at_r s
  end.

Definition upd (z : var) (n : Z) (s : store) : store :=
  match z with
  | MaximumBlockReward => mkStore n (at_big8 s) (at_big32 s) (at_reward s) (at_r s)
  | big8 => mkStore (at_MaximumBlockReward s) n (at_big32 s) (at_reward s) (at_r s)
  | big32 => mkStore (at_MaximumBlockReward s) (at_big8 s) n (at_reward s) (at_r s)
  | reward => mkStore (at_MaximumBlockReward s) (at_big8 s) (at_big32 s) n (at_r s)
  | r => mkStore (at_MaximumBlockReward s) (at_big8 s) (at_big32 s) (at_reward s) n
  end.

(** An argument of a [big.Int] method: one of the variables above, or
    a number owned by an input header, which is only read. *)
Inductive operand : Set :=
| Var (v : var)
| Val (n : Z).

Definition load (s : store) (o : operand) : Z :=
  match o with
  | Var v => get s v
  | Val n => n
  end.

(** [z := new(big.Int)] *)
Definition New (z : var) (s : store) : store := upd z 0 s.

(** [z.Set(x)] *)
Definition Set_ (z : var) (x : operand) (s : store) : store :=
  upd z (load s x) s.

(** [z.Add(x, y)], [z.Sub(x, y)], [z.Mul(x, y)] *)
Definition Add (z : var) (x y : operand) (s : store) : store :=
  upd z (load s x + load s y) s.
Definition Sub (z : var) (x y : operand) (s : store) : store :=
  upd z (load s x - load s y) s.
Definition Mul (z : var) (x y : operand) (s : store) : store :=
  upd z (load s x * load s y) s.

(** Euclidean division and modulus: [m = x - y*q] with
    [0 <= m < |y|]. *)
Definition ediv (x y : Z) : Z := Z.sgn y * (x / Z.abs y).
Definition emod (x y : Z) : Z := x mod Z.abs y.

(** [z.Div(x, y)]: Euclidean division; a division-by-zero run-time
    panic when [y] is zero. *)
Definition Div (z : var) (x y : operand) (s : store) : option store :=
  if load s y =? 0 then None
  else Some (upd z (ediv (load s x) (load s y)) s).

(** [big.NewInt(0).DivMod(x, y, big.NewInt(0))] on values: the pair
    of the quotient and the modulus, or the division-by-zero panic. *)
Definition DivMod (x y : Z) : option (Z * Z) :=
  if y =? 0 then None else Some (ediv x y, emod x y).

(** [x.Cmp(y)] *)
Definition Cmp (x y : Z) : Z :=
  match x ?= y with
  | Lt => -1
  | Eq => 0
  | Gt => 1
  end.

(** The package-level variables as the [var] block initialises
    them; the scratch integers hold nothing yet. *)
Definition init : store :=
  {| at_MaximumBlockReward := 5000000000000000000;
     at_big8 := 8;
     at_big32 := 32;
     at_reward := 0;
     at_r := 0 |}.

(** The package-level variables still hold their initial values. *)
Definition initialised (s : store) : Prop :=
  get s MaximumBlockReward = get init MaximumBlockReward
  /\ get s big8 = get init big8
  /\ get s big32 = get init big32.

End big.

Coercion big.Var : big.var >-> big.operand.
Coercion big.Val : Z >-> big.operand.

(** [common.Big1] *)
Definition Big1 : Z := 1.

(** ** [fmt]: what the error messages use *)

(** [%v] of a [*big.Int]: its decimal digits, with a minus sign when
    negative. *)
Definition fmt_v (n : Z) : string := NilZero.string_of_int (Z.to_int n).

(** [fmt.Sprintf] for formats whose only verb is [%v], given no more
    arguments than verbs. *)
Fixpoint Sprintf (format : string) (args : list Z) : string :=
  match format with
  | EmptyString => EmptyString
  | String "%" (String "v" rest) =>
      match args with
      | a :: args' => (fmt_v a ++ Sprintf rest args')%string
      | [] => ("%!v(MISSING)" ++ Sprintf rest [])%string
      end
  | String c rest => String c (Sprintf rest args)
  end.

(** The line feed of a ["\n"] escape. *)
Definition LF : string := String (ascii_of_nat 10) EmptyString.

(** ** The types of the collaborating packages

    The state database, the chain configuration, the execution engine
    and the signature schemes are not part of this file; their types
    are kept abstract. *)

Class Types := {
  StateDB : Type;        (* state.StateDB *)
  ChainConfig : Type;
  BlockChain : Type;
  ForkFeature : Type;
  Fork : Type;
  Signer : Type;         (* types.Signer *)
  Env : Type;            (* the vm environment built by NewEnv *)
  Log : Type;            (* vm.Log *)
  EngineError : Type     (* the error values of the collaborators *)
}.

Section DataModel.
Context {T : Types}.

(** Go's [error]: made here by [fmt.Errorf], or handed over by a
    collaborator. *)
Inductive error : Type :=
| errorString (msg : string)
| engineError (e : EngineError).

(** [fmt.Errorf] *)
Definition Errorf (format : string) (args : list Z) : error :=
  errorString (Sprintf format args).

(** [types.Header], the fields this file reads. *)
Record Header : Type := {
  Number : Z;
  Coinbase : Address;
  GasLimit : Z
}.

(** [types.Transaction], through the methods this file calls; [signer]
    is the field that [SetSigner] assigns. *)
Record Transaction : Type := {
  tx_Hash : Hash;
  tx_Nonce : Z;
  tx_To : option Address;
  tx_Protected : bool;
  tx_ChainId : Z;
  tx_signer : option Signer
}.

(** [tx.SetSigner(s)] *)
Definition SetSigner (tx : Transaction) (s : Signer) : Transaction :=
  {| tx_Hash := tx_Hash tx;
     tx_Nonce := tx_Nonce tx;
     tx_To := tx_To tx;
     tx_Protected := tx_Protected tx;
     tx_ChainId := tx_ChainId tx;
     tx_signer := Some s |}.

(** [types.Block]: [block.Header()], [block.Transactions()],
    [block.Uncles()] and [block.Hash()]. *)
Record Block : Type := {
  block_Header : Header;
  block_Transactions : list Transaction;
  block_Uncles : list Header;
  block_Hash : Hash
}.

(** [block.Number()] and [block.GasLimit()] read the header. *)
Definition block_Number (b : Block) : Z := Number (block_Header b).
Definition block_GasLimit (b : Block) : Z := GasLimit (block_Header b).

(** [types.Receipt] *)
Record Receipt : Type := {
  PostState : list Byte.byte;
  CumulativeGasUsed : Z;
  Bloom_ : Bloom;
  TxHash : Hash;
  ContractAddress : Address;
  Logs : list Log;
  GasUsed : Z
}.

(** Modelled from the spec: [types.NewReceipt] is declared in
    core/types; the receipt it returns holds the post-transaction state
    commitment and the cumulative gas used up to and including this
    transaction, every other field at its zero value. *)
Definition NewReceipt (root : list Byte.byte) (cumulativeGasUsed : Z) : Receipt :=
  {| PostState := root;
     CumulativeGasUsed := cumulativeGasUsed;
     Bloom_ := zeroBloom;
     TxHash := [];
     ContractAddress := zeroAddress;
     Logs := [];
     GasUsed := 0 |}.

(** Assignments to the fields of a [*types.Receipt]. *)
Definition set_TxHash (rc : Receipt) (h : Hash) : Receipt :=
  {| PostState := PostState rc; CumulativeGasUsed := CumulativeGasUsed rc;
     Bloom_ := Bloom_ rc; TxHash := h; ContractAddress := ContractAddress rc;
     Logs := Logs rc; GasUsed := GasUsed rc |}.
Definition set_GasUsed (rc : Receipt) (g : Z) : Receipt :=
  {| PostState := PostState rc; CumulativeGasUsed := CumulativeGasUsed rc;
     Bloom_ := Bloom_ rc; TxHash := TxHash rc; ContractAddress := ContractAddress rc;
     Logs := Logs rc; GasUsed := g |}.
Definition set_ContractAddress (rc : Receipt) (a : Address) : Receipt :=
  {| PostState := PostState rc; CumulativeGasUsed := CumulativeGasUsed rc;
     Bloom_ := Bloom_ rc; TxHash := TxHash rc; ContractAddress := a;
     Logs := Logs rc; GasUsed := GasUsed rc |}.
Definition set_Logs (rc : Receipt) (l : list Log) : Receipt :=
  {| PostState := PostState rc; CumulativeGasUsed := CumulativeGasUsed rc;
     Bloom_ := Bloom_ rc; TxHash := TxHash rc; ContractAddress := ContractAddress rc;
     Logs := l; GasUsed := GasUsed rc |}.
Definition set_Bloom (rc : Receipt) (b : Bloom) : Receipt :=
  {| PostState := PostState rc; CumulativeGasUsed := CumulativeGasUsed rc;
     Bloom_ := b; TxHash := TxHash rc; ContractAddress := ContractAddress rc;
     Logs := Logs rc; GasUsed := GasUsed rc |}.

(** Modelled from the spec: [GasPool] is declared in core/gaspool.go; a
    single counter, initialised to the block's gas limit. *)
Definition GasPool := Z.
Definition new_GasPool : GasPool := 0.
Definition AddGas (gp : GasPool) (amount : Z) : GasPool := gp + amount.

(** Modelled from the spec: [MessageCreatesContract] is declared in
    core/state_transition.go; a transaction with no recipient creates a
    contract. *)
Definition MessageCreatesContract (tx : Transaction) : bool :=
  match tx_To tx with
  | None => true
  | Some _ => false
  end.

End DataModel.

(** ** The operations of the collaborating packages *)

Class Collaborators {T : Types} := {
  (* state.StateDB; every method that writes returns the new state *)
  StartRecord : StateDB -> Hash -> Hash -> Z -> StateDB;
  IntermediateRoot : StateDB -> Hash * StateDB;
  GetLogs : StateDB -> Hash -> list Log;
  AddBalance : StateDB -> Address -> Z -> StateDB;
  (* ChainConfig and ForkFeature; GetBigInt returns the number and its
     ok flag, the number counting only when the flag is set *)
  GetFeature : ChainConfig -> Z -> string -> ForkFeature * Fork * bool;
  GetBigInt : ForkFeature -> string -> Z * bool;
  GetChainID : ChainConfig -> Z;
  GetSigner : ChainConfig -> Z -> Signer;
  (* the execution engine *)
  NewEnv : StateDB -> ChainConfig -> BlockChain -> Transaction -> Header -> Env;
  ApplyMessage : Env -> Transaction -> GasPool ->
                 (list Byte.byte * Z + error) * GasPool * StateDB;
  (* types and crypto *)
  tx_From : Transaction -> Address * option error;
  CreateAddress : Address -> Z -> Address;
  CreateBloom : list Receipt -> Bloom
}.

(** ** core/state_processor.go *)

Section StateProcessor.
Context {T : Types} {C : Collaborators}.

(** A panic aborts the rest of the call. *)
Notation "x <- c ;; k" :=
  (match c with Some x => k | None => None end)
  (at level 61, c at next level, right associativity, only parsing).

Record StateProcessor : Type := {
  config : ChainConfig;
  bc : BlockChain
}.

(** [NewStateProcessor] *)
Definition NewStateProcessor (config : ChainConfig) (bc : BlockChain) : StateProcessor :=
  {| config := config; bc := bc |}.

(** What [ApplyTransaction] hands back: the receipt, the logs and the
    gas of the transaction, or the error; with them the gas pool, the
    state and the running total [usedGas] it was given pointers to. *)
Definition Applied : Type :=
  ((Receipt * list Log * Z + error) * GasPool * StateDB * Z)%type.

(** [ApplyTransaction]; the [glog] line writes to the debug log only. *)
Definition ApplyTransaction (config : ChainConfig) (bc : BlockChain)
    (gp : GasPool) (statedb : StateDB) (header : Header)
    (tx : Transaction) (usedGas : Z) : Applied :=
  let tx := SetSigner tx (GetSigner config (Number header)) in
  match ApplyMessage (NewEnv statedb config bc tx header) tx gp with
  | (inr err, gp, statedb) => (inr err, gp, statedb, usedGas)
  | (inl (_, gas), gp, statedb) =>
      (* Update the state with pending changes *)
      let usedGas := usedGas + gas in
      let '(root, statedb) := IntermediateRoot statedb in
      let receipt := NewReceipt root usedGas in
      let receipt := set_TxHash receipt (tx_Hash tx) in
      let receipt := set_GasUsed receipt gas in
      let receipt :=
        if MessageCreatesContract tx then
          let '(from, _) := tx_From tx in
          set_ContractAddress receipt (CreateAddress from (tx_Nonce tx))
        else receipt in
      let logs := GetLogs statedb (tx_Hash tx) in
      let receipt := set_Logs receipt logs in
      let receipt := set_Bloom receipt (CreateBloom [receipt]) in
      (inl (receipt, logs, gas), gp, statedb, usedGas)
  end.

(** One pass of the loop over the uncles in [AccumulateRewards]. *)
Definition uncleReward (header : Header) (acc : big.store * StateDB)
    (uncle : Header) : option (big.store * StateDB) :=
  let '(s, statedb) := acc in
  let s := big.Add big.r (Number uncle) big.big8 s in
  let s := big.Sub big.r big.r (Number header) s in
  let s := big.Mul big.r big.r big.MaximumBlockReward s in
  s <- big.Div big.r big.r big.big8 s ;;
  let statedb := AddBalance statedb (Coinbase uncle) (big.get s big.r) in
  s <- big.Div big.r big.MaximumBlockReward big.big32 s ;;
  let s := big.Add big.reward big.reward big.r s in
  Some (s, statedb).

(** [for _, uncle := range uncles] *)
Fixpoint rangeUncles (header : Header) (uncles : list Header)
    (acc : big.store * StateDB) : option (big.store * StateDB) :=
  match uncles with
  | [] => Some acc
  | uncle :: rest =>
      acc <- uncleReward header acc uncle ;;
      rangeUncles header rest acc
  end.

(** [AccumulateRewards] *)
Definition AccumulateRewards (s : big.store) (statedb : StateDB)
    (header : Header) (uncles : list Header) : option (big.store * StateDB) :=
  let s := big.Set_ big.reward big.MaximumBlockReward (big.New big.reward s) in
  let s := big.New big.r s in
  acc <- rangeUncles header uncles (s, statedb) ;;
  let '(s, statedb) := acc in
  Some (s, AddBalance statedb (Coinbase header) (big.get s big.reward)).

(** [getBlockEra] *)
Definition getBlockEra (blockNum eraLength : Z) : option Z :=
  qm <- big.DivMod blockNum eraLength ;;
  let '(_, m) := qm in
  Some (m + Big1).

(** The four values [Process] returns: receipts, logs, the gas used
    (a [*big.Int], [None] when nil) and the error ([None] when nil). *)
Definition Returned : Type :=
  (list Receipt * list Log * option Z * option error)%type.

(** The variables of [Process] that the loop updates. *)
Record Locals : Type := {
  receipts : list Receipt;
  totalUsedGas : Z;
  allLogs : list Log;
  gp : GasPool;
  statedb : StateDB
}.

(** An iteration either falls through to the next one or leaves
    [Process] by a [return]. *)
Inductive step : Type :=
| Next (l : Locals)
| Return (ret : Returned) (statedb : StateDB).

(** The body of [if tx.Protected()]: the error it returns with, if
    any. *)
Definition checkProtected (p : StateProcessor) (block : Block)
    (tx : Transaction) : option error :=
  if tx_Protected tx then
    let '(feat, _, configured) := GetFeature (config p) (block_Number block) "eip155" in
    let '(chainId, ok) := GetBigInt feat "chainID" in
    if negb configured || negb ok then
      Some (Errorf ("ChainID is not set for EIP-155 in chain configuration at block number: %v. " ++ LF ++ "  Tx ChainID: %v")%string
                   [block_Number block; tx_ChainId tx])
    else if negb (big.Cmp (tx_ChainId tx) chainId =? 0) then
      Some (Errorf "Invalid transaction chain id. Current chain id: %v tx chain id: %v"
                   [GetChainID (config p); tx_ChainId tx])
    else None
  else None.

(** The body of [for i, tx := range block.Transactions()]. *)
Definition iteration (p : StateProcessor) (block : Block) (header : Header)
    (l : Locals) (i : Z) (tx : Transaction) : step :=
  match checkProtected p block tx with
  | Some err => Return ([], [], None, Some err) (statedb l)
  | None =>
      let statedb := StartRecord (statedb l) (tx_Hash tx) (block_Hash block) i in
      match ApplyTransaction (config p) (bc p) (gp l) statedb header tx (totalUsedGas l) with
      | (inr err, _, statedb, totalUsedGas) =>
          Return ([], [], Some totalUsedGas, Some err) statedb
      | (inl (receipt, logs, _), gp, statedb, totalUsedGas) =>
          Next {| receipts := receipts l ++ [receipt];
                  totalUsedGas := totalUsedGas;
                  allLogs := allLogs l ++ logs;
                  gp := gp;
                  statedb := statedb |}
      end
  end.

(** [for i, tx := range block.Transactions()], from index [i] on. *)
Fixpoint rangeTransactions (p : StateProcessor) (block : Block) (header : Header)
    (i : Z) (txs : list Transaction) (l : Locals) : step :=
  match txs with
  | [] => Next l
  | tx :: rest =>
      match iteration p block header l i tx with
      | Next l => rangeTransactions p block header (i + 1) rest l
      | Return ret statedb => Return ret statedb
      end
  end.

(** The [var] block at the head of [Process]. *)
Definition enter (block : Block) (statedb : StateDB) : Locals :=
  {| receipts := [];
     totalUsedGas := 0;
     allLogs := [];
     gp := AddGas new_GasPool (block_GasLimit block);
     statedb := statedb |}.

(** [Process]: the returned values, the state database it was given a
    pointer to, and the [big.Int] variables of the package. *)
Definition Process (s : big.store) (p : StateProcessor) (block : Block)
    (statedb : StateDB) : option (Returned * StateDB * big.store) :=
  let header := block_Header block in
  match rangeTransactions p block header 0 (block_Transactions block)
                          (enter block statedb) with
  | Return ret statedb => Some (ret, statedb, s)
  | Next (Build_Locals receipts totalUsedGas allLogs _ statedb) =>
      acc <- AccumulateRewards s statedb header (block_Uncles block) ;;
      let '(s, statedb) := acc in
      Some ((receipts, allLogs, Some totalUsedGas, None), statedb, s)
  end.

End StateProcessor.

(** ** A small chain to run the processor on

    An engine that charges every transaction 21000 gas and fails when
    the pool holds less, a state database that journals the balance
    credits, and a configuration that is the chain identifier of the
    replay-protection rule, if the rule is set. *)

Module Sample.

#[export] Instance types : Types := {|
  StateDB := list (Address * Z);
  ChainConfig := option Z;
  BlockChain := unit;
  ForkFeature := option Z;
  Fork := unit;
  Signer := Z;
  Env := list (Address * Z);
  Log := Hash;
  EngineError := string
|}.

Definition alice : Address := repeat Byte.x0a 20.
Definition bob : Address := repeat Byte.x0b 20.
Definition carol : Address := repeat Byte.x0c 20.

#[export] Instance collaborators : Collaborators := {|
  StartRecord := fun statedb _ _ _ => statedb;
  IntermediateRoot := fun statedb => (repeat Byte.xff 32, statedb);
  GetLogs := fun _ thash => [thash];
  AddBalance := fun statedb addr amount => statedb ++ [(addr, amount)];
  GetFeature := fun config _ _ =>
    (config, tt, match config with Some _ => true | None => false end);
  GetBigInt := fun feat _ =>
    match feat with Some id => (id, true) | None => (0, false) end;
  GetChainID := fun config => match config with Some id => id | None => 0 end;
  GetSigner := fun _ num => num;
  NewEnv := fun statedb _ _ _ _ => statedb;
  ApplyMessage := fun env _ gp =>
    if 21000 <=? gp then (inl ([], 21000), gp - 21000, env)
    else (inr (engineError "gas limit reached"), gp, env);
  tx_From := fun _ => (alice, None);
  CreateAddress := fun from nonce => Byte.x01 :: from;
  CreateBloom := fun _ => zeroBloom
|}.

Definition header : Header :=
  {| Number := 100; Coinbase := bob; GasLimit := 50000 |}.

Definition uncle : Header :=
  {| Number := 99; Coinbase := carol; GasLimit := 50000 |}.

(** A transfer, a contract creation and a replay-protected transfer. *)
Definition transfer (nonce : Z) : Transaction :=
  {| tx_Hash := [Byte.x01]; tx_Nonce := nonce; tx_To := Some bob;
     tx_Protected := false; tx_ChainId := 0; tx_signer := None |}.

Definition creation (nonce : Z) : Transaction :=
  {| tx_Hash := [Byte.x02]; tx_Nonce := nonce; tx_To := None;
     tx_Protected := false; tx_ChainId := 0; tx_signer := None |}.

Definition protected (chainId : Z) : Transaction :=
  {| tx_Hash := [Byte.x03]; tx_Nonce := 0; tx_To := Some bob;
     tx_Protected := true; tx_ChainId := chainId; tx_signer := None |}.

Definition block (txs : list Transaction) (uncles : list Header) : Block :=
  {| block_Header := header; block_Transactions := txs;
     block_Uncles := uncles; block_Hash := [Byte.xbb] |}.

Definition processor (config : option Z) : StateProcessor :=
  NewStateProcessor config tt.

(** The journal with no credit yet. *)
Definition genesis : StateDB := [].

(** [Process] on a block of the sample chain, from the empty journal
    and the freshly initialised package. *)
Definition run (config : option Z) (txs : list Transaction)
    (uncles : list Header) : option (Returned * StateDB * big.store) :=
  Process big.init (processor config) (block txs uncles) genesis.

End Sample.

(** ** The vocabulary of the specification *)

Section Vocabulary.
Context {T : Types} {C : Collaborators}.

(** The base reward of the schedule: what [MaximumBlockReward] is
    initialised to. *)
Definition baseReward : Z := big.get big.init big.MaximumBlockReward.

(** The gas used by a sequence of receipts, each counted by its own
    [GasUsed]. *)
Definition gasSum (rs : list Receipt) : Z :=
  fold_right (fun rc acc => GasUsed rc + acc) 0 rs.

(** The credit an uncle earns in a block with the given header. *)
Definition uncleCredit (header uncle : Header) : Z :=
  (Number uncle + 8 - Number header) * baseReward / 8.

(** The uncles' coinbases credited one after the other. *)
Definition creditUncles (header : Header) (uncles : list Header)
    (statedb : StateDB) : StateDB :=
  fold_left (fun st u => AddBalance st (Coinbase u) (uncleCredit header u))
            uncles statedb.

(** The gas the execution engine reports for [tx] when the loop of
    [Process] reaches it at index [i] with the variables [l]; [None]
    when the engine fails. *)
Definition engineGas (p : StateProcessor) (block : Block) (l : Locals)
    (i : Z) (tx : Transaction) : option Z :=
  let header := block_Header block in
  let tx' := SetSigner tx (GetSigner (config p) (Number header)) in
  let st := StartRecord (statedb l) (tx_Hash tx) (block_Hash block) i in
  match ApplyMessage (NewEnv st (config p) (bc p) tx' header) tx' (gp l) with
  | (inl (_, gas), _, _) => Some gas
  | (inr _, _, _) => None
  end.

(** The execution engine never reports a negative amount of gas. *)
Definition engineGasNonNegative : Prop :=
  forall env tx gp ret gas gp' statedb',
    ApplyMessage env tx gp = (inl (ret, gas), gp', statedb') -> 0 <= gas.

(** The sender that [tx.From()] recovers once the signer of the
    header's number is bound to [tx]. *)
Definition sender (config : ChainConfig) (header : Header)
    (tx : Transaction) : Address :=
  fst (tx_From (SetSigner tx (GetSigner config (Number header)))).

(** The contract address a receipt for [tx] is to carry. *)
Definition expectedAddress (config : ChainConfig) (header : Header)
    (tx : Transaction) : Address :=
  match tx_To tx with
  | None => CreateAddress (sender config header tx) (tx_Nonce tx)
  | Some _ => zeroAddress
  end.

(** The message of the configuration error. *)
Definition chainIdNotSet (blockNumber txChainId : Z) : string :=
  ("ChainID is not set for EIP-155 in chain configuration at block number: "
   ++ fmt_v blockNumber ++ ". " ++ LF ++ "  Tx ChainID: " ++ fmt_v txChainId)%string.

(** The message of the validation error. *)
Definition invalidChainId (currentChainId txChainId : Z) : string :=
  ("Invalid transaction chain id. Current chain id: " ++ fmt_v currentChainId
   ++ " tx chain id: " ++ fmt_v txChainId)%string.

(** The block with another sequence of transactions. *)
Definition withTransactions (b : Block) (txs : list Transaction) : Block :=
  {| block_Header := block_Header b;
     block_Transactions := txs;
     block_Uncles := block_Uncles b;
     block_Hash := block_Hash b |}.

(** [sub] stands at the head of [s]. *)
Fixpoint hasPrefix (sub s : string) : bool :=
  match sub, s with
  | EmptyString, _ => true
  | String _ _, EmptyString => false
  | String a sub', String b s' => Ascii.eqb a b && hasPrefix sub' s'
  end.

(** [sub] occurs in [s]. *)
Fixpoint contains (sub s : string) : bool :=
  if hasPrefix sub s then true
  else match s with
       | EmptyString => false
       | String _ s' => contains sub s'
       end.

(** A message names an identifier when the decimal digits of the
    identifier occur in it. *)
Definition names (msg : string) (id : Z) : bool := contains (fmt_v id) msg.

(** The rejection of a mismatching protected transaction as the
    specification words it: the error names both identifiers that were
    compared, the one the rule requires and the transaction's. *)
Definition mismatchNamesBothCompared (p : StateProcessor) (block : Block)
    (db : StateDB) : Prop :=
  forall s pre tx post l feat fork chainId,
    block_Transactions block = pre ++ tx :: post ->
    rangeTransactions p block (block_Header block) 0 pre (enter block db) = Next l ->
    tx_Protected tx = true ->
    GetFeature (config p) (block_Number block) "eip155" = (feat, fork, true) ->
    GetBigInt feat "chainID" = (chainId, true) ->
    tx_ChainId tx <> chainId ->
    exists msg,
      Process s p block db
      = Some (([], [], None, Some (errorString msg)), statedb l, s)
      /\ names msg chainId = true
      /\ names msg (tx_ChainId tx) = true.

(** The values of the package-level variables in a store. *)
Definition package (s : big.store) : Z * Z * Z :=
  (big.get s big.MaximumBlockReward, big.get s big.big8, big.get s big.big32).

End Vocabulary.

(** ** A chain whose rule changes its chain identifier

    The configuration is the list of its forks in the order of their
    activation, each with the block it is active from and the chain
    identifier of its replay-protection rule.  [GetFeature] gives the
    rule of the latest fork active at the block, [GetChainID] the
    identifier of the last fork of the list.  The rest is the engine
    and the journal of the sample chain. *)

Module Forked.

Definition types : Types := {|
  StateDB := list (Address * Z);
  ChainConfig := list (Z * Z);
  BlockChain := unit;
  ForkFeature := option Z;
  Fork := unit;
  Signer := Z;
  Env := list (Address * Z);
  Log := Hash;
  EngineError := string
|}.

#[local] Existing Instance types.

(** The identifier of the rule of the latest fork active at [num]. *)
Definition ruleAt (forks : list (Z * Z)) (num : Z) : option Z :=
  fold_left (fun found fork => if fst fork <=? num then Some (snd fork) else found)
            forks None.

(** The identifier of the rule of the last fork. *)
Definition lastRule (forks : list (Z * Z)) : Z :=
  fold_left (fun _ fork => snd fork) forks 0.

Definition collaborators : Collaborators := {|
  StartRecord := fun statedb _ _ _ => statedb;
  IntermediateRoot := fun statedb => (repeat Byte.xff 32, statedb);
  GetLogs := fun _ thash => [thash];
  AddBalance := fun statedb addr amount => statedb ++ [(addr, amount)];
  GetFeature := fun config num _ =>
    (ruleAt config num, tt,
     match ruleAt config num with Some _ => true | None => false end);
  GetBigInt := fun feat _ =>
    match feat with Some id => (id, true) | None => (0, false) end;
  GetChainID := lastRule;
  GetSigner := fun _ num => num;
  NewEnv := fun statedb _ _ _ _ => statedb;
  ApplyMessage := fun env _ gp =>
    if 21000 <=? gp then (inl ([], 21000), gp - 21000, env)
    else (inr (engineError "gas limit reached"), gp, env);
  tx_From := fun _ => (repeat Byte.x0a 20, None);
  CreateAddress := fun from nonce => Byte.x01 :: from;
  CreateBloom := fun _ => zeroBloom
|}.

#[local] Existing Instance collaborators.

(** The rule requires 61 from block 10 on and 62 from block 100 on. *)
Definition forks : list (Z * Z) := [(10, 61); (100, 62)].

Definition processor : StateProcessor := NewStateProcessor forks tt.

(** A protected transaction signed for chain 62. *)
Definition tx62 : Transaction :=
  {| tx_Hash := [Byte.x03]; tx_Nonce := 0; tx_To := Some (repeat Byte.x0b 20);
     tx_Protected := true; tx_ChainId := 62; tx_signer := None |}.

(** A block at number 50, where the rule requires 61. *)
Definition block50 : Block :=
  {| block_Header := {| Number := 50; Coinbase := repeat Byte.x0b 20;
                        GasLimit := 50000 |};
     block_Transactions := [tx62];
     block_Uncles := [];
     block_Hash := [Byte.xbb] |}.

Definition genesis : StateDB := [].

(** The variables of [Process] when it reaches the first transaction. *)
Definition start : Locals := enter block50 genesis.

(** [Process] on the block, from the empty journal. *)
Definition run : option (Returned * StateDB * big.store) :=
  Process big.init processor block50 genesis.

(** What [mismatchNamesBothCompared] says of the block. *)
Definition namesBothCompared : Prop :=
  mismatchNamesBothCompared processor block50 genesis.

End Forked.

(** ** The reward engine *)

(** Reading and writing the variables of a store. *)
Ltac store_simpl :=
  cbv [big.load big.get big.upd big.New big.Set_
       big.at_MaximumBlockReward big.at_big8 big.at_big32
       big.at_reward big.at_r].

Section Rewards.
Context {T : Types} {C : Collaborators}.

Lemma ediv_pos x y : 0 < y -> big.ediv x y = x / y.
Proof.
  intros Hy. unfold big.ediv.
  rewrite Z.sgn_pos, Z.abs_eq by lia. apply Z.mul_1_l.
Qed.

Lemma initialised_package s :
  big.initialised s <-> package s = package big.init.
Proof.
  unfold big.initialised, package. split.
  - intros (H1 & H2 & H3). rewrite H1, H2, H3. reflexivity.
  - intros H. injection H as H1 H2 H3. auto.
Qed.

(** One uncle: its coinbase is credited, [reward] grows by a 32nd of
    the base reward, the package-level variables are left alone. *)
Lemma uncleReward_spec header s statedb uncle :
  big.initialised s ->
  exists s',
    uncleReward header (s, statedb) uncle
    = Some (s', AddBalance statedb (Coinbase uncle) (uncleCredit header uncle))
    /\ package s' = package s
    /\ big.get s' big.reward = big.get s big.reward + baseReward / 32.
Proof.
  intros (H1 & H2 & H3). destruct s as [m b8 b32 rw rr].
  cbn in H1, H2, H3. subst m b8 b32.
  unfold uncleReward, big.Div, big.Add, big.Sub, big.Mul.
  store_simpl. change (8 =? 0) with false. cbv iota.
  store_simpl. change (32 =? 0) with false. cbv iota.
  store_simpl. rewrite !ediv_pos by lia.
  eexists. split; [reflexivity|]. split; reflexivity.
Qed.

Lemma rangeUncles_spec header uncles : forall s statedb,
  big.initialised s ->
  exists s',
    rangeUncles header uncles (s, statedb)
    = Some (s', creditUncles header uncles statedb)
    /\ package s' = package s
    /\ big.get s' big.reward
       = big.get s big.reward + Z.of_nat (length uncles) * (baseReward / 32).
Proof.
  induction uncles as [|u us IH]; intros s statedb Hs.
  - exists s. cbn. repeat split. lia.
  - destruct (uncleReward_spec header s statedb u Hs) as (s1 & E1 & P1 & R1).
    assert (Hs1 : big.initialised s1).
    { apply initialised_package. rewrite P1. now apply initialised_package. }
    destruct (IH s1 (AddBalance statedb (Coinbase u) (uncleCredit header u)) Hs1)
      as (s2 & E2 & P2 & R2).
    exists s2. cbn [rangeUncles]. rewrite E1, E2. repeat split.
    + congruence.
    + rewrite R2, R1. cbn [length]. lia.
Qed.

(** The whole engine, for a store whose package-level variables hold
    their initial values. *)
Lemma AccumulateRewards_spec s statedb header uncles :
  big.initialised s ->
  exists s',
    AccumulateRewards s statedb header uncles
    = Some (s', AddBalance (creditUncles header uncles statedb) (Coinbase header)
                  (baseReward + Z.of_nat (length uncles) * (baseReward / 32)))
    /\ package s' = package s.
Proof.
  intros Hs. unfold AccumulateRewards.
  set (s0 := big.New big.r _).
  assert (Hs0 : big.initialised s0).
  { destruct s; destruct Hs as (? & ? & ?); repeat split; assumption. }
  assert (Hr : big.get s0 big.reward = baseReward).
  { destruct s; destruct Hs as (H & _ & _); exact H. }
  destruct (rangeUncles_spec header uncles s0 statedb Hs0) as (s1 & E & P & R).
  rewrite E. exists s1. split.
  - rewrite R, Hr. reflexivity.
  - rewrite P. destruct s; reflexivity.
Qed.

End Rewards.

(** ** The transaction applier and the loop of [Process] *)

Section Loop.
Context {T : Types} {C : Collaborators}.

Lemma gasSum_app (a b : list Receipt) : gasSum (a ++ b) = gasSum a + gasSum b.
Proof.
  induction a as [|rc a IH]; cbn [gasSum app fold_right] in *.
  - reflexivity.
  - fold (gasSum (a ++ b)) (gasSum a). rewrite IH. lia.
Qed.

Lemma gasSum_cons (rc : Receipt) (rs : list Receipt) :
  gasSum (rc :: rs) = GasUsed rc + gasSum rs.
Proof. reflexivity. Qed.

(** Prefix sums of non-negative amounts grow with the prefix. *)
Lemma gasSum_firstn_mono (rs : list Receipt) :
  Forall (fun rc => 0 <= GasUsed rc) rs ->
  forall i j, (i <= j)%nat -> gasSum (firstn i rs) <= gasSum (firstn j rs).
Proof.
  induction 1 as [|rc rs Hrc Hrs IH]; intros i j Hij.
  - rewrite !firstn_nil. lia.
  - destruct i as [|i]; destruct j as [|j]; try lia.
    + cbn [firstn]. rewrite gasSum_cons.
      specialize (IH 0%nat j ltac:(lia)). cbn [firstn] in IH.
      change (gasSum []) with 0 in *. lia.
    + cbn [firstn]. rewrite !gasSum_cons.
      specialize (IH i j ltac:(lia)). lia.
Qed.

(** A transaction that is applied: the running total grows by the gas
    the engine reports, and the receipt records that gas, the new
    total and the transaction's hash. *)
Lemma ApplyTransaction_inl config bc gp statedb header tx usedGas
    rc logs gas gp' statedb' usedGas' :
  ApplyTransaction config bc gp statedb header tx usedGas
  = (inl (rc, logs, gas), gp', statedb', usedGas') ->
  usedGas' = usedGas + gas
  /\ GasUsed rc = gas
  /\ CumulativeGasUsed rc = usedGas + gas
  /\ TxHash rc = tx_Hash tx
  /\ exists ret mid,
       ApplyMessage
         (NewEnv statedb config bc (SetSigner tx (GetSigner config (Number header))) header)
         (SetSigner tx (GetSigner config (Number header))) gp
       = (inl (ret, gas), gp', mid).
Proof.
  unfold ApplyTransaction.
  destruct (ApplyMessage _ _ _) as [[[[ret g]|err] gp1] mid]; [|discriminate].
  destruct (IntermediateRoot mid) as [root st1].
  intros H. injection H as Hrc Hlogs Hgas Hgp Hst Hused. subst.
  destruct (MessageCreatesContract (SetSigner tx _));
    [destruct (tx_From (SetSigner tx _))|];
    (repeat split; try reflexivity; now exists ret, mid).
Qed.

(** A transaction that the engine refuses leaves the running total as
    it was. *)
Lemma ApplyTransaction_inr config bc gp statedb header tx usedGas
    err gp' statedb' usedGas' :
  ApplyTransaction config bc gp statedb header tx usedGas
  = (inr err, gp', statedb', usedGas') ->
  usedGas' = usedGas.
Proof.
  unfold ApplyTransaction.
  destruct (ApplyMessage _ _ _) as [[[[ret g]|e] gp1] mid].
  - destruct (IntermediateRoot mid) as [root st1]. discriminate.
  - intros H. now injection H.
Qed.

(** An iteration that falls through passed the chain-identifier check
    and applied its transaction. *)
Lemma iteration_Next p block header l i tx l' :
  iteration p block header l i tx = Next l' ->
  checkProtected p block tx = None
  /\ exists rc logs gas,
       ApplyTransaction (config p) (bc p) (gp l)
         (StartRecord (statedb l) (tx_Hash tx) (block_Hash block) i)
         header tx (totalUsedGas l)
       = (inl (rc, logs, gas), gp l', statedb l', totalUsedGas l')
       /\ receipts l' = receipts l ++ [rc]
       /\ allLogs l' = allLogs l ++ logs.
Proof.
  unfold iteration.
  destruct (checkProtected p block tx); [discriminate|].
  destruct (ApplyTransaction _ _ _ _ _ _ _) as [[[[[[rc logs] gas]|err] gp1] st1] ug1];
    [|discriminate].
  intros H. injection H as <-. split; [reflexivity|].
  exists rc, logs, gas. repeat split.
Qed.

(** An iteration that returns does so with an error and nothing else. *)
Lemma iteration_Return p block header l i tx ret st :
  iteration p block header l i tx = Return ret st ->
  exists gas err, ret = ([], [], gas, Some err).
Proof.
  unfold iteration.
  destruct (checkProtected p block tx) as [e|].
  - intros H. injection H as <- _. now exists None, e.
  - destruct (ApplyTransaction _ _ _ _ _ _ _) as [[[[[[rc logs] gas]|err] gp1] st1] ug1];
      [discriminate|].
    intros H. injection H as <- _. now exists (Some ug1), err.
Qed.

(** The loop over a concatenation runs the second part where the
    first part stops. *)
Lemma rangeTransactions_app p block header pre post : forall i l,
  rangeTransactions p block header i (pre ++ post) l
  = match rangeTransactions p block header i pre l with
    | Next l' =>
        rangeTransactions p block header (i + Z.of_nat (length pre)) post l'
    | Return ret st => Return ret st
    end.
Proof.
  induction pre as [|tx pre IH]; intros i l.
  - cbn. now rewrite Z.add_0_r.
  - cbn [app rangeTransactions].
    destruct (iteration p block header l i tx) as [l1|ret st]; [|reflexivity].
    rewrite IH. cbn [length]. now replace (i + 1 + Z.of_nat (length pre))
      with (i + Z.of_nat (S (length pre))) by lia.
Qed.

Lemma rangeTransactions_Return p block header txs : forall i l ret st,
  rangeTransactions p block header i txs l = Return ret st ->
  exists gas err, ret = ([], [], gas, Some err).
Proof.
  induction txs as [|tx txs IH]; intros i l ret st; cbn [rangeTransactions].
  - discriminate.
  - destruct (iteration p block header l i tx) as [l1|ret1 st1] eqn:E.
    + apply IH.
    + intros H. injection H as <- <-. eapply iteration_Return, E.
Qed.

(** What the loop has built when it runs to its end: one receipt per
    transaction, in order, each with the gas the engine reported and
    the running total at that point. *)
Lemma rangeTransactions_Next p block header txs : forall i l l',
  rangeTransactions p block header i txs l = Next l' ->
  exists rs,
    receipts l' = receipts l ++ rs
    /\ map TxHash rs = map tx_Hash txs
    /\ totalUsedGas l' = totalUsedGas l + gasSum rs
    /\ (forall k rc, nth_error rs k = Some rc ->
         CumulativeGasUsed rc = totalUsedGas l + gasSum (firstn (S k) rs))
    /\ Forall (fun rc => exists env tx gp ret gp' st,
                 ApplyMessage env tx gp = (inl (ret, GasUsed rc), gp', st)) rs.
Proof.
  induction txs as [|tx txs IH]; intros i l l'; cbn [rangeTransactions].
  - intros H. injection H as <-. exists []. cbn. rewrite app_nil_r.
    repeat split; try lia; auto.
    intros [|k] rc; discriminate.
  - destruct (iteration p block header l i tx) as [l1|ret1 st1] eqn:E;
      [|discriminate].
    intros H. apply IH in H. destruct H as (rs & Hrs & Hmap & Htot & Hcum & Hall).
    apply iteration_Next in E.
    destruct E as (_ & rc & logs & gas & Happ & Hrc & _).
    apply ApplyTransaction_inl in Happ.
    destruct Happ as (Hug & Hgas & Hc & Hh & ret & mid & Hmsg).
    exists (rc :: rs). repeat split.
    + rewrite Hrs, Hrc, <- app_assoc. reflexivity.
    + cbn [map]. now rewrite Hh, Hmap.
    + rewrite gasSum_cons, Htot, Hug, Hgas. lia.
    + intros [|k] rc' Hk.
      * injection Hk as <-. cbn [firstn]. rewrite gasSum_cons, Hc, Hgas.
        change (gasSum []) with 0. lia.
      * cbn [nth_error] in Hk. apply Hcum in Hk.
        change (firstn (S (S k)) (rc :: rs)) with (rc :: firstn (S k) rs).
        rewrite gasSum_cons, Hk, Hug, Hgas. lia.
    + constructor; [|exact Hall].
      rewrite Hgas. eauto 10.
Qed.

End Loop.

(** ** The chain-identifier check *)

Section ChainId.
Context {T : Types} {C : Collaborators}.

Lemma append_empty_r (a : string) : (a ++ "")%string = a.
Proof. induction a as [|c a IH]; cbn; [|rewrite IH]; reflexivity. Qed.

Lemma Cmp_zero x y : (big.Cmp x y =? 0) = true <-> x = y.
Proof.
  unfold big.Cmp. destruct (Z.compare_spec x y) as [E|L|G]; cbn; split;
    intros H; try discriminate; try lia; auto.
Qed.

Lemma Errorf_chainIdNotSet (n c : Z) :
  Errorf ("ChainID is not set for EIP-155 in chain configuration at block number: %v. "
          ++ LF ++ "  Tx ChainID: %v")%string [n; c]
  = errorString (chainIdNotSet n c).
Proof.
  unfold Errorf, chainIdNotSet. f_equal.
  cbn -[fmt_v]. now rewrite append_empty_r.
Qed.

Lemma Errorf_invalidChainId (n c : Z) :
  Errorf "Invalid transaction chain id. Current chain id: %v tx chain id: %v" [n; c]
  = errorString (invalidChainId n c).
Proof.
  unfold Errorf, invalidChainId. f_equal.
  cbn -[fmt_v]. now rewrite append_empty_r.
Qed.

Lemma hasPrefix_app (a b : string) : hasPrefix a (a ++ b) = true.
Proof.
  induction a as [|c a IH]; cbn; [reflexivity|].
  now rewrite Ascii.eqb_refl, IH.
Qed.

Lemma contains_app_l (sub b : string) : contains sub (sub ++ b) = true.
Proof.
  destruct (sub ++ b)%string eqn:E; cbn [contains];
    rewrite <- E, hasPrefix_app; reflexivity.
Qed.

Lemma contains_app_r (sub a b : string) :
  contains sub b = true -> contains sub (a ++ b) = true.
Proof.
  intros H. induction a as [|c a IH]; cbn [append contains]; [exact H|].
  rewrite IH. now destruct (hasPrefix sub (String c (a ++ b))).
Qed.

Lemma contains_refl (sub : string) : contains sub sub = true.
Proof. rewrite <- (append_empty_r sub) at 2. apply contains_app_l. Qed.

(** The message of the validation error names the two identifiers it
    is made of. *)
Lemma invalidChainId_names (current txid : Z) :
  names (invalidChainId current txid) current = true
  /\ names (invalidChainId current txid) txid = true.
Proof.
  unfold names, invalidChainId. split.
  - apply contains_app_r, contains_app_l.
  - do 3 apply contains_app_r. apply contains_refl.
Qed.

(** A protected transaction on a chain without the rule, or without
    the rule's chain identifier. *)
Lemma checkProtected_not_set p block tx feat fork configured :
  tx_Protected tx = true ->
  GetFeature (config p) (block_Number block) "eip155" = (feat, fork, configured) ->
  configured = false \/ snd (GetBigInt feat "chainID") = false ->
  checkProtected p block tx
  = Some (errorString (chainIdNotSet (block_Number block) (tx_ChainId tx))).
Proof.
  intros Hp Hf Hc. unfold checkProtected. rewrite Hp, Hf.
  rewrite Errorf_chainIdNotSet.
  destruct (GetBigInt feat "chainID") as [chainId ok]. cbn [snd] in Hc.
  destruct Hc as [->| ->]; [reflexivity|].
  now rewrite orb_true_r.
Qed.

(** A protected transaction whose chain identifier is not the rule's. *)
Lemma checkProtected_mismatch p block tx feat fork chainId :
  tx_Protected tx = true ->
  GetFeature (config p) (block_Number block) "eip155" = (feat, fork, true) ->
  GetBigInt feat "chainID" = (chainId, true) ->
  tx_ChainId tx <> chainId ->
  checkProtected p block tx
  = Some (errorString (invalidChainId (GetChainID (config p)) (tx_ChainId tx))).
Proof.
  intros Hp Hf Hc Hne. unfold checkProtected. rewrite Hp, Hf, Hc.
  rewrite Errorf_invalidChainId. cbn [negb orb].
  destruct (big.Cmp (tx_ChainId tx) chainId =? 0) eqn:E; [|reflexivity].
  apply Cmp_zero in E. contradiction.
Qed.

End ChainId.

(** ** [Process] as a whole *)

Section Whole.
Context {T : Types} {C : Collaborators}.

(** The loop left by a [return]: [Process] returns just that, and the
    package-level variables are not touched. *)
Lemma Process_Return s p block db ret st :
  rangeTransactions p block (block_Header block) 0 (block_Transactions block)
                    (enter block db) = Return ret st ->
  Process s p block db = Some (ret, st, s).
Proof. intros H. unfold Process. now rewrite H. Qed.

(** The loop run to its end: the rewards follow. *)
Lemma Process_Next s p block db l :
  rangeTransactions p block (block_Header block) 0 (block_Transactions block)
                    (enter block db) = Next l ->
  Process s p block db
  = match AccumulateRewards s (statedb l) (block_Header block) (block_Uncles block) with
    | Some (s', st) =>
        Some ((receipts l, allLogs l, Some (totalUsedGas l), None), st, s')
    | None => None
    end.
Proof.
  intros H. unfold Process. rewrite H. destruct l as [rs tot logs g st]. cbn.
  destruct (AccumulateRewards s st _ _) as [[s' st']|]; reflexivity.
Qed.

(** [Process] stops at the first iteration that returns. *)
Lemma Process_stops s p block db pre tx post l ret st :
  block_Transactions block = pre ++ tx :: post ->
  rangeTransactions p block (block_Header block) 0 pre (enter block db) = Next l ->
  iteration p block (block_Header block) l (Z.of_nat (length pre)) tx = Return ret st ->
  Process s p block db = Some (ret, st, s).
Proof.
  intros Htxs Hpre Hit. apply Process_Return.
  rewrite Htxs, rangeTransactions_app, Hpre. cbn [rangeTransactions].
  rewrite Z.add_0_l, Hit. reflexivity.
Qed.

(** A call that returns a nil error ran the loop to its end. *)
Lemma Process_success s p block db rs logs gas st s' :
  Process s p block db = Some ((rs, logs, gas, None), st, s') ->
  exists l,
    rangeTransactions p block (block_Header block) 0 (block_Transactions block)
                      (enter block db) = Next l
    /\ rs = receipts l /\ logs = allLogs l /\ gas = Some (totalUsedGas l).
Proof.
  destruct (rangeTransactions p block (block_Header block) 0
              (block_Transactions block) (enter block db)) as [l|ret st1] eqn:E.
  - rewrite (Process_Next _ _ _ _ _ E).
    destruct (AccumulateRewards _ _ _ _) as [[s1 st1]|]; [|discriminate].
    intros H. injection H as <- <- <- _ _. now exists l.
  - rewrite (Process_Return _ _ _ _ _ _ E).
    apply rangeTransactions_Return in E. destruct E as (g & e & ->).
    discriminate.
Qed.

(** The loop run over a prefix of a sequence that it runs to the end. *)
Lemma rangeTransactions_prefix p block header pre tx post i l l' :
  rangeTransactions p block header i (pre ++ tx :: post) l = Next l' ->
  exists lk l1,
    rangeTransactions p block header i pre l = Next lk
    /\ iteration p block header lk (i + Z.of_nat (length pre)) tx = Next l1
    /\ rangeTransactions p block header (i + Z.of_nat (length pre) + 1) post l1 = Next l'.
Proof.
  rewrite rangeTransactions_app.
  destruct (rangeTransactions p block header i pre l) as [lk|]; [|discriminate].
  cbn [rangeTransactions].
  destruct (iteration p block header lk _ tx) as [l1|] eqn:E; [|discriminate].
  intros H. now exists lk, l1.
Qed.

(** [AccumulateRewards] reads the package-level variables and nothing
    else of the store it is given. *)
Lemma AccumulateRewards_package_only s t statedb header uncles :
  package s = package t ->
  AccumulateRewards s statedb header uncles
  = AccumulateRewards t statedb header uncles.
Proof.
  destruct s, t. unfold package. cbn. intros H. injection H as -> -> ->.
  reflexivity.
Qed.

Lemma uncleReward_package header s statedb uncle s' statedb' :
  uncleReward header (s, statedb) uncle = Some (s', statedb') ->
  package s' = package s.
Proof.
  destruct s as [m b8 b32 rw rr].
  unfold uncleReward, big.Div, big.Add, big.Sub, big.Mul. store_simpl.
  destruct (b8 =? 0); [discriminate|]. store_simpl.
  destruct (b32 =? 0); [discriminate|].
  intros H. injection H as <- _. reflexivity.
Qed.

Lemma rangeUncles_package header uncles : forall s statedb s' statedb',
  rangeUncles header uncles (s, statedb) = Some (s', statedb') ->
  package s' = package s.
Proof.
  induction uncles as [|u us IH]; intros s statedb s' statedb'; cbn [rangeUncles].
  - intros H. now injection H as <- _.
  - destruct (uncleReward header (s, statedb) u) as [[s1 st1]|] eqn:E; [|discriminate].
    intros H. apply IH in H. rewrite H. eapply uncleReward_package, E.
Qed.

Lemma AccumulateRewards_package s statedb header uncles s' statedb' :
  AccumulateRewards s statedb header uncles = Some (s', statedb') ->
  package s' = package s.
Proof.
  unfold AccumulateRewards.
  destruct (rangeUncles header uncles _) as [[s1 st1]|] eqn:E; [|discriminate].
  intros H. injection H as <- _.
  apply rangeUncles_package in E. rewrite E. destruct s; reflexivity.
Qed.

End Whole.

(** ** The properties of the processor *)

Section Properties.
Context {T : Types} {C : Collaborators}.

Lemma nth_error_middle {A} (a : list A) (x : A) (b : list A) :
  nth_error (a ++ x :: b) (length a) = Some x.
Proof. induction a as [|y a IH]; [reflexivity | exact IH]. Qed.

(** The loop started by [Process] and run to its end. *)
Lemma rangeTransactions_enter p block db txs l :
  rangeTransactions p block (block_Header block) 0 txs (enter block db) = Next l ->
  map TxHash (receipts l) = map tx_Hash txs
  /\ totalUsedGas l = gasSum (receipts l)
  /\ (forall k rc, nth_error (receipts l) k = Some rc ->
      CumulativeGasUsed rc = gasSum (firstn (S k) (receipts l)))
  /\ Forall (fun rc => exists env tx gp ret gp' st,
               ApplyMessage env tx gp = (inl (ret, GasUsed rc), gp', st))
            (receipts l).
Proof.
  intros H. apply rangeTransactions_Next in H.
  destruct H as (rs & Hrs & Hmap & Htot & Hcum & Hall).
  cbn in Hrs, Htot, Hcum. rewrite Hrs. repeat split; auto.
Qed.

(** An iteration whose transaction the applier refuses. *)
Lemma iteration_refused p block l i tx err gp' statedb' usedGas' :
  checkProtected p block tx = None ->
  ApplyTransaction (config p) (bc p) (gp l)
    (StartRecord (statedb l) (tx_Hash tx) (block_Hash block) i)
    (block_Header block) tx (totalUsedGas l)
  = (inr err, gp', statedb', usedGas') ->
  iteration p block (block_Header block) l i tx
  = Return ([], [], Some (totalUsedGas l), Some err) statedb'.
Proof.
  intros Hc Ha. unfold iteration. rewrite Hc, Ha.
  apply ApplyTransaction_inr in Ha. now subst.
Qed.

(** An iteration whose transaction fails the chain-identifier check. *)
Lemma iteration_rejected p block header l i tx err :
  checkProtected p block tx = Some err ->
  iteration p block header l i tx = Return ([], [], None, Some err) (statedb l).
Proof. intros Hc. unfold iteration. now rewrite Hc. Qed.

(** C1: when the applier returns an error for the transaction at some
    index, the transactions before it having been applied, [Process]
    returns nil receipts and nil logs with that error, and the gas it
    returns is the gas used by the receipts of the transactions applied
    before, which it does not return. *)
Theorem Process_apply_error_aborts s p block db pre tx post l
    err gp' statedb' usedGas' :
  block_Transactions block = pre ++ tx :: post ->
  rangeTransactions p block (block_Header block) 0 pre (enter block db) = Next l ->
  checkProtected p block tx = None ->
  ApplyTransaction (config p) (bc p) (gp l)
    (StartRecord (statedb l) (tx_Hash tx) (block_Hash block) (Z.of_nat (length pre)))
    (block_Header block) tx (totalUsedGas l)
  = (inr err, gp', statedb', usedGas') ->
  Process s p block db
  = Some (([], [], Some (gasSum (receipts l)), Some err), statedb', s)
  /\ map TxHash (receipts l) = map tx_Hash pre.
Proof.
  intros Htxs Hpre Hc Ha.
  destruct (rangeTransactions_enter _ _ _ _ _ Hpre) as (Hmap & Htot & _).
  split; [|exact Hmap].
  rewrite <- Htot. eapply Process_stops; eauto.
  eapply iteration_refused; eauto.
Qed.

(** C2: in a call of [Process] that succeeds, the receipts follow the
    order of the transactions, the cumulative gas of each receipt is the
    sum of the gas used by the receipts up to and including it, the gas
    used of each receipt is the gas the engine reported for its
    transaction, the returned total is the sum over all receipts, and
    the cumulative gas never decreases when the engine reports no
    negative gas. *)
Theorem Process_receipts_gas s p block db rs logs gas st s' :
  Process s p block db = Some ((rs, logs, gas, None), st, s') ->
  map TxHash rs = map tx_Hash (block_Transactions block)
  /\ (forall i rc, nth_error rs i = Some rc ->
      CumulativeGasUsed rc = gasSum (firstn (S i) rs))
  /\ (forall pre tx post,
      block_Transactions block = pre ++ tx :: post ->
      exists l rc,
        rangeTransactions p block (block_Header block) 0 pre (enter block db) = Next l
        /\ nth_error rs (length pre) = Some rc
        /\ engineGas p block l (Z.of_nat (length pre)) tx = Some (GasUsed rc))
  /\ gas = Some (gasSum rs)
  /\ (engineGasNonNegative ->
      forall i j rci rcj, (i <= j)%nat ->
        nth_error rs i = Some rci -> nth_error rs j = Some rcj ->
        CumulativeGasUsed rci <= CumulativeGasUsed rcj).
Proof.
  intros H. apply Process_success in H. destruct H as (l & Hl & -> & -> & ->).
  destruct (rangeTransactions_enter _ _ _ _ _ Hl) as (Hmap & Htot & Hcum & Hall).
  split; [exact Hmap|]. split; [exact Hcum|]. split; [|split].
  - intros pre tx post Htxs. rewrite Htxs in Hl.
    apply rangeTransactions_prefix in Hl.
    destruct Hl as (lk & l1 & Hk & Hit & Hpost).
    rewrite Z.add_0_l in Hit.
    destruct (rangeTransactions_enter _ _ _ _ _ Hk) as (Hmk & _).
    apply iteration_Next in Hit.
    destruct Hit as (_ & rc & lg & g & Happ & Hrc & _).
    apply ApplyTransaction_inl in Happ.
    destruct Happ as (_ & Hg & _ & _ & ret & mid & Hmsg).
    apply rangeTransactions_Next in Hpost. destruct Hpost as (rest & Hrest & _).
    exists lk, rc. split; [exact Hk|]. split.
    + rewrite Hrest, Hrc, <- app_assoc. cbn [app].
      replace (length pre) with (length (receipts lk)); [apply nth_error_middle|].
      rewrite <- (length_map TxHash), Hmk. apply length_map.
    + unfold engineGas. rewrite Hmsg, Hg. reflexivity.
  - now rewrite Htot.
  - intros Hnn i j rci rcj Hij Hi Hj.
    rewrite (Hcum _ _ Hi), (Hcum _ _ Hj).
    apply gasSum_firstn_mono; [|lia].
    eapply Forall_impl; [|exact Hall]. cbn.
    intros rc (env & tx & g & ret & g' & st' & Hmsg). eapply Hnn, Hmsg.
Qed.

(** The loop does not look at the transactions of the block other
    than those it is given to run. *)
Lemma rangeTransactions_withTransactions p block others header txs : forall i l,
  rangeTransactions p (withTransactions block others) header i txs l
  = rangeTransactions p block header i txs l.
Proof.
  induction txs as [|tx txs IH]; intros i l; cbn [rangeTransactions].
  - reflexivity.
  - change (iteration p (withTransactions block others) header l i tx)
      with (iteration p block header l i tx).
    destruct (iteration p block header l i tx); [apply IH | reflexivity].
Qed.

(** C3: with the package-level variables at their initial values,
    [AccumulateRewards] credits every uncle's coinbase with
    (uncle.number + 8 - header.number) * baseReward / 8, in order, then
    the header's coinbase with baseReward plus baseReward / 32 for each
    uncle; one uncle at header.number - 1 earns 7 * baseReward / 8,
    which is seven eighths exactly, and the coinbase
    baseReward + baseReward / 32. *)
Theorem AccumulateRewards_credits s db header uncles :
  big.initialised s ->
  exists s',
    AccumulateRewards s db header uncles
    = Some (s', AddBalance (creditUncles header uncles db) (Coinbase header)
                  (baseReward + Z.of_nat (length uncles) * (baseReward / 32)))
    /\ (forall u, uncles = [u] -> Number u = Number header - 1 ->
         AccumulateRewards s db header uncles
         = Some (s', AddBalance (AddBalance db (Coinbase u) (7 * baseReward / 8))
                       (Coinbase header) (baseReward + baseReward / 32)))
    /\ 8 * (7 * baseReward / 8) = 7 * baseReward
    /\ 32 * (baseReward / 32) = baseReward.
Proof.
  intros Hs.
  destruct (AccumulateRewards_spec s db header uncles Hs) as (s' & E & _).
  exists s'. split; [exact E|]. split; [|split; reflexivity].
  intros u -> Hu. rewrite E. cbn [creditUncles fold_left length].
  unfold uncleCredit. rewrite Hu.
  replace (Number header - 1 + 8 - Number header) with 7 by lia.
  reflexivity.
Qed.

(** C4: when the loop reaches a protected transaction and the
    replay-protection rule is configured with a chain identifier, the
    transaction passes if its chain identifier is the rule's; if not,
    [Process] returns no receipts and an error whose message names the
    chain identifier that [GetChainID] reports for the configuration
    and the transaction's chain identifier, the state is the one left
    by the transactions before, and the transactions after play no
    part.  The identifier of the rule that was compared is named when
    [GetChainID] reports that one. *)
Theorem Process_chain_id_mismatch s p block db pre tx post l feat fork chainId :
  block_Transactions block = pre ++ tx :: post ->
  rangeTransactions p block (block_Header block) 0 pre (enter block db) = Next l ->
  tx_Protected tx = true ->
  GetFeature (config p) (block_Number block) "eip155" = (feat, fork, true) ->
  GetBigInt feat "chainID" = (chainId, true) ->
  (tx_ChainId tx = chainId -> checkProtected p block tx = None)
  /\ (tx_ChainId tx <> chainId ->
      forall post',
        Process s p (withTransactions block (pre ++ tx :: post')) db
        = Some (([], [], None,
                 Some (errorString
                         (invalidChainId (GetChainID (config p)) (tx_ChainId tx)))),
                statedb l, s))
  /\ names (invalidChainId (GetChainID (config p)) (tx_ChainId tx))
           (GetChainID (config p)) = true
  /\ names (invalidChainId (GetChainID (config p)) (tx_ChainId tx))
           (tx_ChainId tx) = true
  /\ (GetChainID (config p) = chainId ->
      names (invalidChainId (GetChainID (config p)) (tx_ChainId tx)) chainId = true).
Proof.
  intros Htxs Hpre Hp Hf Hc.
  destruct (invalidChainId_names (GetChainID (config p)) (tx_ChainId tx))
    as (Hn1 & Hn2).
  split; [|split; [|split; [exact Hn1|split; [exact Hn2|]]]].
  - intros He. unfold checkProtected. rewrite Hp, Hf, Hc. cbn [negb orb].
    apply Cmp_zero in He. now rewrite He.
  - intros Hne post'.
    eapply Process_stops with (pre := pre) (tx := tx) (post := post') (l := l).
    + reflexivity.
    + rewrite rangeTransactions_withTransactions. exact Hpre.
    + apply iteration_rejected.
      exact (checkProtected_mismatch p block tx feat fork chainId Hp Hf Hc Hne).
  - intros <-. exact Hn1.
Qed.

(** C5: when the loop reaches a protected transaction and the
    replay-protection rule is not configured at the block's number, or
    has no chain identifier, [Process] returns no receipts and an error
    whose message names the block number and the chain identifier of
    the transaction. *)
Theorem Process_chain_id_not_set s p block db pre tx post l feat fork configured :
  block_Transactions block = pre ++ tx :: post ->
  rangeTransactions p block (block_Header block) 0 pre (enter block db) = Next l ->
  tx_Protected tx = true ->
  GetFeature (config p) (block_Number block) "eip155" = (feat, fork, configured) ->
  configured = false \/ snd (GetBigInt feat "chainID") = false ->
  Process s p block db
  = Some (([], [], None,
           Some (errorString (chainIdNotSet (block_Number block) (tx_ChainId tx)))),
          statedb l, s).
Proof.
  intros Htxs Hpre Hp Hf Hc.
  eapply Process_stops; [exact Htxs | exact Hpre |].
  apply iteration_rejected. eapply checkProtected_not_set; eauto.
Qed.

(** C6: a block with no transactions and no uncles: [Process] returns
    no receipts, no logs, zero gas and no error, and the state it leaves
    is the given one with baseReward credited to the header's
    coinbase. *)
Theorem Process_empty_block s p block db :
  big.initialised s ->
  block_Transactions block = [] ->
  block_Uncles block = [] ->
  exists s',
    Process s p block db
    = Some (([], [], Some 0, None),
            AddBalance db (Coinbase (block_Header block)) baseReward, s')
    /\ package s' = package s.
Proof.
  intros Hs Htxs Hun.
  destruct (AccumulateRewards_spec s db (block_Header block) [] Hs) as (s' & E & P).
  exists s'. split; [|exact P].
  unfold Process. rewrite Htxs, Hun. cbn [rangeTransactions enter].
  rewrite E. cbn [creditUncles fold_left length Z.of_nat].
  now rewrite Z.mul_0_l, Z.add_0_r.
Qed.

(** C7: the receipt of an applied transaction without a recipient
    carries the address derived from the sender and the transaction's
    nonce; the receipt of one with a recipient carries the zero
    address. *)
Theorem ApplyTransaction_contract_address config bc gp statedb header tx usedGas
    rc logs gas gp' statedb' usedGas' :
  ApplyTransaction config bc gp statedb header tx usedGas
  = (inl (rc, logs, gas), gp', statedb', usedGas') ->
  (tx_To tx = None ->
   ContractAddress rc = CreateAddress (sender config header tx) (tx_Nonce tx))
  /\ (forall to, tx_To tx = Some to -> ContractAddress rc = zeroAddress).
Proof.
  unfold ApplyTransaction, sender, MessageCreatesContract.
  destruct (ApplyMessage _ _ _) as [[[[ret g]|err] gp1] mid]; [|discriminate].
  destruct (IntermediateRoot mid) as [root st1].
  cbn [tx_To SetSigner].
  destruct (tx_To tx) as [to|].
  - intros H. injection H as <- _. split; [discriminate | reflexivity].
  - destruct (tx_From (SetSigner tx _)) as [from e].
    intros H. injection H as <- _. split; [reflexivity | discriminate].
Qed.

(** C8: a call of [Process] changes none of the package-level
    variables, and any other call with the same block and an equal
    state, made with these variables at the same values, in particular
    the next call in the same program, returns the same receipts, logs,
    gas and error and leaves the same state, reward credits
    included. *)
Theorem Process_deterministic s p block db ret st s1 :
  Process s p block db = Some (ret, st, s1) ->
  package s1 = package s
  /\ Process s1 p block db = Some (ret, st, s1)
  /\ (forall t, package t = package s ->
      exists t1, Process t p block db = Some (ret, st, t1)
                 /\ package t1 = package t).
Proof.
  destruct (rangeTransactions p block (block_Header block) 0
              (block_Transactions block) (enter block db)) as [l|ret0 st0] eqn:E.
  - rewrite (Process_Next s _ _ _ _ E).
    destruct (AccumulateRewards s _ _ _) as [[s' st']|] eqn:A; [|discriminate].
    intros H. injection H as <- <- <-.
    pose proof (AccumulateRewards_package _ _ _ _ _ _ A) as P.
    split; [exact P|]. split.
    + rewrite (Process_Next s' _ _ _ _ E).
      now rewrite (AccumulateRewards_package_only s' s _ _ _ P), A.
    + intros t Ht. exists s'.
      rewrite (Process_Next t _ _ _ _ E).
      rewrite (AccumulateRewards_package_only t s _ _ _ Ht), A.
      split; [reflexivity | congruence].
  - rewrite (Process_Return s _ _ _ _ _ E).
    intros H. injection H as <- <- <-.
    split; [reflexivity|]. split.
    + apply Process_Return, E.
    + intros t Ht. exists t. split; [apply Process_Return, E | reflexivity].
Qed.

(** C9: when the loop reaches a protected transaction that fails the
    chain-identifier check, for want of the rule or of its identifier or
    by a mismatch, the gas [Process] returns is nil; when it reaches a
    transaction that the applier refuses, the gas it returns is the
    running total. *)
Theorem Process_error_gas s p block db pre tx post l :
  block_Transactions block = pre ++ tx :: post ->
  rangeTransactions p block (block_Header block) 0 pre (enter block db) = Next l ->
  (forall feat fork configured,
      tx_Protected tx = true ->
      GetFeature (config p) (block_Number block) "eip155" = (feat, fork, configured) ->
      configured = false
      \/ snd (GetBigInt feat "chainID") = false
      \/ tx_ChainId tx <> fst (GetBigInt feat "chainID") ->
      exists err,
        Process s p block db = Some (([], [], None, Some err), statedb l, s))
  /\ (forall err gp' statedb' usedGas',
      checkProtected p block tx = None ->
      ApplyTransaction (config p) (bc p) (gp l)
        (StartRecord (statedb l) (tx_Hash tx) (block_Hash block) (Z.of_nat (length pre)))
        (block_Header block) tx (totalUsedGas l)
      = (inr err, gp', statedb', usedGas') ->
      Process s p block db
      = Some (([], [], Some (totalUsedGas l), Some err), statedb', s)).
Proof.
  intros Htxs Hpre. split.
  - intros feat fork configured Hp Hf Hcase.
    assert (exists err, checkProtected p block tx = Some err) as (err & Hc).
    { destruct configured;
        [|eexists; eapply checkProtected_not_set; eauto].
      destruct (GetBigInt feat "chainID") as [chainId [|]] eqn:Hb;
        [|eexists; eapply checkProtected_not_set; eauto; rewrite Hb; auto].
      destruct Hcase as [H|[H|Hne]]; try discriminate.
      eexists.
      exact (checkProtected_mismatch p block tx feat fork chainId Hp Hf Hb Hne). }
    exists err. eapply Process_stops; [exact Htxs | exact Hpre |].
    now apply iteration_rejected.
  - intros err gp' statedb' usedGas' Hc Ha.
    eapply Process_stops; [exact Htxs | exact Hpre |].
    eapply iteration_refused; eauto.
Qed.

(** C10: for an era length other than zero, [getBlockEra] returns one
    more than the remainder of the Euclidean division of the block
    number by the era length, which is [blockNum mod eraLength] for a
    positive era length; block numbers that differ by a multiple of the
    era length get the same result. *)
Theorem getBlockEra_remainder blockNum eraLength :
  eraLength <> 0 ->
  (exists q m,
      blockNum = eraLength * q + m /\ 0 <= m < Z.abs eraLength
      /\ getBlockEra blockNum eraLength = Some (m + 1))
  /\ (0 < eraLength ->
      getBlockEra blockNum eraLength = Some (blockNum mod eraLength + 1))
  /\ (forall k,
      getBlockEra (blockNum + k * eraLength) eraLength
      = getBlockEra blockNum eraLength).
Proof.
  intros Hne. unfold getBlockEra, big.DivMod, Big1.
  destruct (Z.eqb_spec eraLength 0) as [|_]; [contradiction|].
  assert (Habs : 0 < Z.abs eraLength) by lia.
  split; [|split].
  - exists (big.ediv blockNum eraLength), (big.emod blockNum eraLength).
    unfold big.ediv, big.emod. repeat split.
    + pose proof (Z.div_mod blockNum (Z.abs eraLength) ltac:(lia)) as D.
      rewrite Z.mul_assoc, Z.sgn_abs. exact D.
    + apply Z.mod_pos_bound, Habs.
    + apply Z.mod_pos_bound, Habs.
  - intros Hpos. unfold big.emod. now rewrite Z.abs_eq by lia.
  - intros k. unfold big.emod. do 2 f_equal.
    replace (k * eraLength) with (k * Z.sgn eraLength * Z.abs eraLength).
    + apply Z.mod_add. lia.
    + rewrite <- Z.mul_assoc. f_equal. rewrite Z.mul_comm. apply Z.abs_sgn.
Qed.

End Properties.

(** ** Further properties of the loop, the receipts and the rewards *)

Section Further.
Context {T : Types} {C : Collaborators}.

(** The receipt of an applied transaction: its logs are the returned
    logs, its bloom is made from the receipt as it stood before the
    bloom was assigned, its contract address goes by the recipient. *)
Lemma ApplyTransaction_receipt config bc gp statedb header tx usedGas
    rc logs gas gp' statedb' usedGas' :
  ApplyTransaction config bc gp statedb header tx usedGas
  = (inl (rc, logs, gas), gp', statedb', usedGas') ->
  Logs rc = logs
  /\ Bloom_ rc = CreateBloom [set_Bloom rc zeroBloom]
  /\ ContractAddress rc = expectedAddress config header tx
  /\ TxHash rc = tx_Hash tx.
Proof.
  unfold ApplyTransaction, expectedAddress, sender, MessageCreatesContract.
  destruct (ApplyMessage _ _ _) as [[[[ret g]|err] gp1] mid]; [|discriminate].
  destruct (IntermediateRoot mid) as [root st1].
  cbn [tx_To SetSigner].
  destruct (tx_To tx) as [to|].
  - intros H. injection H as <- <- _ _ _ _. repeat split.
  - destruct (tx_From (SetSigner tx _)) as [from e].
    intros H. injection H as <- <- _ _ _ _. repeat split.
Qed.

(** What the loop has appended when it runs to its end, field by
    field of the receipts. *)
Lemma rangeTransactions_Next_fields p block header txs : forall i l l',
  rangeTransactions p block header i txs l = Next l' ->
  exists rs,
    receipts l' = receipts l ++ rs
    /\ allLogs l' = allLogs l ++ concat (map Logs rs)
    /\ Forall (fun rc => Bloom_ rc = CreateBloom [set_Bloom rc zeroBloom]) rs
    /\ Forall2 (fun tx rc => TxHash rc = tx_Hash tx
                             /\ ContractAddress rc = expectedAddress (config p) header tx)
               txs rs.
Proof.
  induction txs as [|tx txs IH]; intros i l l'; cbn [rangeTransactions].
  - intros H. injection H as <-. exists []. cbn. rewrite !app_nil_r. auto.
  - destruct (iteration p block header l i tx) as [l1|ret1 st1] eqn:E;
      [|discriminate].
    intros H. apply IH in H. destruct H as (rs & Hrs & Hlogs & Hbl & Had).
    apply iteration_Next in E.
    destruct E as (_ & rc & logs & gas & Happ & Hrc & Hlg).
    apply ApplyTransaction_receipt in Happ.
    destruct Happ as (HL & HB & HA & HH).
    exists (rc :: rs). repeat split.
    + rewrite Hrs, Hrc, <- app_assoc. reflexivity.
    + rewrite Hlogs, Hlg, <- app_assoc. cbn [map concat]. now rewrite HL.
    + constructor; assumption.
    + constructor; [split|]; assumption.
Qed.

(** A loop that returns does so in the first iteration that returns. *)
Lemma rangeTransactions_Return_inv p block header txs : forall i l ret st,
  rangeTransactions p block header i txs l = Return ret st ->
  exists pre tx post lk,
    txs = pre ++ tx :: post
    /\ rangeTransactions p block header i pre l = Next lk
    /\ iteration p block header lk (i + Z.of_nat (length pre)) tx = Return ret st.
Proof.
  induction txs as [|tx txs IH]; intros i l ret st; cbn [rangeTransactions].
  - discriminate.
  - destruct (iteration p block header l i tx) as [l1|ret1 st1] eqn:E.
    + intros H. apply IH in H.
      destruct H as (pre & tx' & post & lk & -> & Hpre & Hit).
      exists (tx :: pre), tx', post, lk. split; [reflexivity|]. split.
      * cbn [rangeTransactions]. now rewrite E.
      * cbn [length]. now replace (i + Z.of_nat (S (length pre)))
          with (i + 1 + Z.of_nat (length pre)) by lia.
    + intros H. injection H as <- <-.
      exists [], tx, txs, l. cbn. now rewrite Z.add_0_r.
Qed.

(** An iteration that returns: by the chain-identifier check, with a
    nil gas and the state as it was, or by the applier, with the
    running total and the state the applier left. *)
Lemma iteration_Return_cases p block l i tx ret st :
  iteration p block (block_Header block) l i tx = Return ret st ->
  exists e,
    (checkProtected p block tx = Some e
     /\ ret = ([], [], None, Some e) /\ st = statedb l)
    \/ (checkProtected p block tx = None
        /\ ret = ([], [], Some (totalUsedGas l), Some e)
        /\ exists gp' usedGas',
            ApplyTransaction (config p) (bc p) (gp l)
              (StartRecord (statedb l) (tx_Hash tx) (block_Hash block) i)
              (block_Header block) tx (totalUsedGas l)
            = (inr e, gp', st, usedGas')).
Proof.
  unfold iteration.
  destruct (checkProtected p block tx) as [e|].
  - intros H. injection H as <- <-. exists e. left. auto.
  - destruct (ApplyTransaction _ _ _ _ _ _ _) as [[[[[[rc logs] gas]|err] gp1] st1] ug1] eqn:A;
      [discriminate|].
    intros H. injection H as <- <-. exists err. right.
    pose proof (ApplyTransaction_inr _ _ _ _ _ _ _ _ _ _ _ A) as ->.
    split; [reflexivity|]. split; [reflexivity|]. now exists gp1, (totalUsedGas l).
Qed.

(** X1: the logs of a call of [Process] that succeeds are the logs of
    its receipts, receipt after receipt. *)
Theorem Process_logs_of_receipts s p block db rs logs gas st s' :
  Process s p block db = Some ((rs, logs, gas, None), st, s') ->
  logs = concat (map Logs rs).
Proof.
  intros H. apply Process_success in H. destruct H as (l & Hl & -> & -> & _).
  apply rangeTransactions_Next_fields in Hl.
  destruct Hl as (rs & Hrs & Hlogs & _). cbn in Hrs, Hlogs.
  now rewrite Hrs, Hlogs.
Qed.

(** X2: whatever [Process] returns is all or nothing: a nil error with
    one receipt for every transaction and a gas total, or an error with
    nil receipts and nil logs, the package-level variables being as
    they were. *)
Theorem Process_all_or_nothing s p block db rs logs gas err st s' :
  Process s p block db = Some ((rs, logs, gas, err), st, s') ->
  (err = None
   /\ length rs = length (block_Transactions block)
   /\ gas = Some (gasSum rs))
  \/ (exists e, err = Some e /\ rs = [] /\ logs = [] /\ s' = s).
Proof.
  destruct (rangeTransactions p block (block_Header block) 0
              (block_Transactions block) (enter block db)) as [l|ret st1] eqn:E.
  - rewrite (Process_Next _ _ _ _ _ E).
    destruct (AccumulateRewards _ _ _ _) as [[s1 st1]|]; [|discriminate].
    intros H. injection H as <- <- <- <- _ _. left.
    destruct (rangeTransactions_enter _ _ _ _ _ E) as (Hmap & Htot & _).
    split; [reflexivity|]. split.
    + rewrite <- (length_map TxHash), Hmap. apply length_map.
    + now rewrite Htot.
  - rewrite (Process_Return _ _ _ _ _ _ E).
    apply rangeTransactions_Return in E. destruct E as (g & e & ->).
    intros H. injection H as <- <- <- <- _ <-. right. now exists e.
Qed.

(** X3: an error that [Process] returns is the error of the first
    transaction that fails: the transactions before it were applied,
    and either it failed the chain-identifier check, the gas being nil
    and the state the one they left, or the applier refused it, the gas
    being their total and the state the one the applier left. *)
Theorem Process_error_origin s p block db rs logs gas e st s' :
  Process s p block db = Some ((rs, logs, gas, Some e), st, s') ->
  exists pre tx post l,
    block_Transactions block = pre ++ tx :: post
    /\ rangeTransactions p block (block_Header block) 0 pre (enter block db) = Next l
    /\ ((checkProtected p block tx = Some e /\ gas = None /\ st = statedb l)
        \/ (checkProtected p block tx = None
            /\ gas = Some (gasSum (receipts l))
            /\ exists gp' usedGas',
                ApplyTransaction (config p) (bc p) (gp l)
                  (StartRecord (statedb l) (tx_Hash tx) (block_Hash block)
                               (Z.of_nat (length pre)))
                  (block_Header block) tx (totalUsedGas l)
                = (inr e, gp', st, usedGas'))).
Proof.
  destruct (rangeTransactions p block (block_Header block) 0
              (block_Transactions block) (enter block db)) as [l|ret st1] eqn:E.
  - rewrite (Process_Next _ _ _ _ _ E).
    destruct (AccumulateRewards _ _ _ _) as [[s1 st1]|]; discriminate.
  - rewrite (Process_Return _ _ _ _ _ _ E).
    intros H. injection H as -> <- _.
    apply rangeTransactions_Return_inv in E.
    destruct E as (pre & tx & post & lk & Htxs & Hpre & Hit).
    rewrite Z.add_0_l in Hit.
    exists pre, tx, post, lk. split; [exact Htxs|]. split; [exact Hpre|].
    apply iteration_Return_cases in Hit.
    destruct Hit as (e' & [(Hc & Hret & Hst)|(Hc & Hret & gp' & u' & Ha)]);
      injection Hret as -> -> -> ->.
    + left. auto.
    + right. split; [exact Hc|].
      destruct (rangeTransactions_enter _ _ _ _ _ Hpre) as (_ & Htot & _).
      split; [now rewrite Htot|]. now exists gp', u'.
Qed.

(** X4: once an iteration returns, nothing that comes after it in the
    block plays a part: with any other transactions behind the failing
    one and any other uncles, [Process] returns the same values and
    leaves the same state. *)
Theorem Process_fail_fast s p block db pre tx post l ret st :
  block_Transactions block = pre ++ tx :: post ->
  rangeTransactions p block (block_Header block) 0 pre (enter block db) = Next l ->
  iteration p block (block_Header block) l (Z.of_nat (length pre)) tx = Return ret st ->
  forall post' uncles',
    Process s p {| block_Header := block_Header block;
                   block_Transactions := pre ++ tx :: post';
                   block_Uncles := uncles';
                   block_Hash := block_Hash block |} db
    = Some (ret, st, s).
Proof.
  intros Htxs Hpre Hit post' uncles'.
  set (b' := {| block_Header := block_Header block;
                block_Transactions := pre ++ tx :: post';
                block_Uncles := uncles';
                block_Hash := block_Hash block |}).
  assert (Hsame : forall i txs l0,
             rangeTransactions p b' (block_Header block) i txs l0
             = rangeTransactions p block (block_Header block) i txs l0).
  { intros i txs. revert i.
    induction txs as [|t txs IH]; intros i l0; cbn [rangeTransactions];
      [reflexivity|].
    change (iteration p b' (block_Header block) l0 i t)
      with (iteration p block (block_Header block) l0 i t).
    destruct (iteration p block (block_Header block) l0 i t);
      [apply IH | reflexivity]. }
  apply (Process_stops s p b' db pre tx post' l ret st).
  - reflexivity.
  - change (block_Header b') with (block_Header block).
    change (enter b' db) with (enter block db).
    now rewrite Hsame.
  - exact Hit.
Qed.

(** X5: in a call that succeeds, the rewards are credited after the
    last transaction, to the state the transactions left: every uncle's
    coinbase, then the header's, with amounts that depend on the block
    numbers and the number of uncles alone. *)
Theorem Process_rewards_after_transactions s p block db rs logs gas st s' :
  big.initialised s ->
  Process s p block db = Some ((rs, logs, gas, None), st, s') ->
  exists l,
    rangeTransactions p block (block_Header block) 0 (block_Transactions block)
                      (enter block db) = Next l
    /\ st = AddBalance
              (creditUncles (block_Header block) (block_Uncles block) (statedb l))
              (Coinbase (block_Header block))
              (baseReward
               + Z.of_nat (length (block_Uncles block)) * (baseReward / 32))
    /\ package s' = package s.
Proof.
  intros Hs H.
  destruct (rangeTransactions p block (block_Header block) 0
              (block_Transactions block) (enter block db)) as [l|ret st1] eqn:E.
  - rewrite (Process_Next _ _ _ _ _ E) in H.
    destruct (AccumulateRewards_spec s (statedb l) (block_Header block)
                (block_Uncles block) Hs) as (s1 & A & P).
    match type of A with _ = Some (_, ?x) => remember x as credited eqn:Hcr end.
    rewrite A in H. injection H as _ _ _ <- <-.
    exists l. split; [reflexivity|]. split; [exact Hcr | exact P].
  - rewrite (Process_Return _ _ _ _ _ _ E) in H.
    apply rangeTransactions_Return in E. destruct E as (g & e & ->).
    discriminate.
Qed.

Lemma gasSum_firstn_S (rs : list Receipt) : forall n rc,
  nth_error rs n = Some rc ->
  gasSum (firstn (S n) rs) = gasSum (firstn n rs) + GasUsed rc.
Proof.
  induction rs as [|a rs IH]; intros [|n] rc H; try discriminate.
  - injection H as <-. cbn [firstn]. rewrite gasSum_cons.
    change (gasSum []) with 0. lia.
  - cbn [nth_error] in H. apply IH in H.
    change (firstn (S (S n)) (a :: rs)) with (a :: firstn (S n) rs).
    change (firstn (S n) (a :: rs)) with (a :: firstn n rs).
    rewrite !gasSum_cons, H. lia.
Qed.

(** X6: the gas total of a call that succeeds is the cumulative gas of
    its last receipt. *)
Theorem Process_total_is_last_cumulative s p block db front rc logs gas st s' :
  Process s p block db = Some ((front ++ [rc], logs, gas, None), st, s') ->
  gas = Some (CumulativeGasUsed rc).
Proof.
  intros H. apply Process_success in H. destruct H as (l & Hl & Hrs & _ & ->).
  destruct (rangeTransactions_enter _ _ _ _ _ Hl) as (_ & Htot & Hcum & _).
  rewrite <- Hrs in Htot, Hcum.
  rewrite (Hcum (length front) rc (nth_error_middle front rc [])), Htot.
  do 2 f_equal. symmetry. apply firstn_all2. rewrite length_app. cbn. lia.
Qed.

(** X7: in a call that succeeds, the cumulative gas of the first
    receipt is its own gas, and from one receipt to the next the
    cumulative gas grows by the gas of the latter. *)
Theorem Process_cumulative_steps s p block db rs logs gas st s' :
  Process s p block db = Some ((rs, logs, gas, None), st, s') ->
  (forall rc, nth_error rs 0 = Some rc -> CumulativeGasUsed rc = GasUsed rc)
  /\ (forall i a b,
      nth_error rs i = Some a -> nth_error rs (S i) = Some b ->
      CumulativeGasUsed b = CumulativeGasUsed a + GasUsed b).
Proof.
  intros H. apply Process_success in H. destruct H as (l & Hl & -> & _ & _).
  destruct (rangeTransactions_enter _ _ _ _ _ Hl) as (_ & _ & Hcum & _).
  split.
  - intros rc H0. rewrite (Hcum _ _ H0), (gasSum_firstn_S _ _ _ H0).
    reflexivity.
  - intros i a b Ha Hb.
    rewrite (Hcum _ _ Ha), (Hcum _ _ Hb). apply gasSum_firstn_S, Hb.
Qed.

(** X8: a block that [Process] accepts is accepted with its
    transactions cut to any prefix, and the receipts, the logs and the
    gas total are then those of the prefix. *)
Theorem Process_prefix s p block db pre post rs logs gas st s' :
  big.initialised s ->
  block_Transactions block = pre ++ post ->
  Process s p block db = Some ((rs, logs, gas, None), st, s') ->
  exists st1 s1,
    Process s p (withTransactions block pre) db
    = Some ((firstn (length pre) rs,
             concat (map Logs (firstn (length pre) rs)),
             Some (gasSum (firstn (length pre) rs)), None), st1, s1).
Proof.
  intros Hs Htxs H.
  apply Process_success in H. destruct H as (l & Hl & -> & _ & _).
  rewrite Htxs, rangeTransactions_app in Hl.
  destruct (rangeTransactions p block (block_Header block) 0 pre (enter block db))
    as [lk|] eqn:Hk; [|discriminate].
  apply rangeTransactions_Next in Hl. destruct Hl as (rest & Hrest & _).
  destruct (rangeTransactions_enter _ _ _ _ _ Hk) as (Hmap & Htot & _).
  pose proof (rangeTransactions_Next_fields _ _ _ _ _ _ _ Hk) as (rk & Hrk & Hlg & _).
  cbn in Hrk, Hlg.
  assert (Hlen : length (receipts lk) = length pre).
  { rewrite <- (length_map TxHash), Hmap. apply length_map. }
  assert (Hfirst : firstn (length pre) (receipts l) = receipts lk).
  { rewrite Hrest, <- Hlen, firstn_app, Nat.sub_diag, firstn_all. cbn.
    apply app_nil_r. }
  rewrite Hfirst.
  destruct (AccumulateRewards_spec s (statedb lk) (block_Header block)
              (block_Uncles block) Hs) as (s1 & A & _).
  eexists _, s1.
  rewrite (Process_Next s p (withTransactions block pre) db lk).
  - cbn [withTransactions block_Header block_Uncles]. rewrite A.
    rewrite <- Htot, Hlg. now rewrite Hrk.
  - cbn [withTransactions block_Header block_Transactions].
    rewrite rangeTransactions_withTransactions. exact Hk.
Qed.

(** X9: for a block none of whose transactions is protected, the gas
    [Process] returns is never nil, with or without an error. *)
Theorem Process_unprotected_gas s p block db rs logs gas err st s' :
  Forall (fun tx => tx_Protected tx = false) (block_Transactions block) ->
  Process s p block db = Some ((rs, logs, gas, err), st, s') ->
  exists g, gas = Some g.
Proof.
  intros Hun.
  destruct (rangeTransactions p block (block_Header block) 0
              (block_Transactions block) (enter block db)) as [l|ret st1] eqn:E.
  - rewrite (Process_Next _ _ _ _ _ E).
    destruct (AccumulateRewards _ _ _ _) as [[s1 st1]|]; [|discriminate].
    intros H. injection H as _ _ <- _ _ _. eauto.
  - rewrite (Process_Return _ _ _ _ _ _ E).
    intros H. injection H as -> _ _.
    apply rangeTransactions_Return_inv in E.
    destruct E as (pre & tx & post & lk & Htxs & _ & Hit).
    apply iteration_Return_cases in Hit.
    destruct Hit as (e & [(Hc & _)|(_ & Hret & _)]).
    + exfalso. rewrite Forall_forall in Hun.
      assert (Hp : tx_Protected tx = false).
      { apply Hun. rewrite Htxs. apply in_elt. }
      unfold checkProtected in Hc. rewrite Hp in Hc. discriminate.
    + injection Hret as _ _ -> _. eauto.
Qed.

(** X10: an uncle [k] blocks older than the header is credited
    [8 - k] eighths of the base reward, to the unit: seven eighths at
    age one, nothing at age eight, and a negative amount beyond, the
    code having no clamp. *)
Theorem AccumulateRewards_uncle_age s db header uncle k :
  big.initialised s ->
  Number uncle = Number header - k ->
  (exists s',
      AccumulateRewards s db header [uncle]
      = Some (s', AddBalance
                    (AddBalance db (Coinbase uncle) ((8 - k) * (baseReward / 8)))
                    (Coinbase header) (baseReward + baseReward / 32)))
  /\ (k < 8 -> 0 < (8 - k) * (baseReward / 8))
  /\ (8 < k -> (8 - k) * (baseReward / 8) < 0).
Proof.
  intros Hs Hk. split; [|split].
  - destruct (AccumulateRewards_spec s db header [uncle] Hs) as (s' & E & _).
    exists s'. rewrite E. cbn [creditUncles fold_left length].
    unfold uncleCredit. rewrite Hk.
    replace (Number header - k + 8 - Number header) with (8 - k) by lia.
    change baseReward with (625000000000000000 * 8).
    rewrite Z.mul_assoc, !Z.div_mul by discriminate.
    rewrite Z.mul_1_l. reflexivity.
  - intros Hlt. apply Z.mul_pos_pos; [lia | reflexivity].
  - intros Hgt. apply Z.mul_neg_pos; [lia | reflexivity].
Qed.

(** X11: [AccumulateRewards] ends in a division-by-zero panic exactly
    when there is an uncle and [big8] or [big32] holds zero; with no
    uncle nothing is divided. *)
Theorem AccumulateRewards_panic s db header uncles :
  AccumulateRewards s db header uncles = None
  <-> uncles <> [] /\ (big.get s big.big8 = 0 \/ big.get s big.big32 = 0).
Proof.
  assert (Hloop : forall us s0 st0,
             rangeUncles header us (s0, st0) = None
             <-> us <> [] /\ (big.get s0 big.big8 = 0 \/ big.get s0 big.big32 = 0)).
  { induction us as [|u us IH]; intros s0 st0; cbn [rangeUncles].
    - split; [discriminate | intros [H _]; contradiction].
    - destruct (uncleReward header (s0, st0) u) as [[s1 st1]|] eqn:E.
      + pose proof (uncleReward_package _ _ _ _ _ _ E) as P.
        unfold package in P. cbn [big.get] in P. injection P as _ P8 P32.
        rewrite IH. cbn [big.get]. rewrite P8, P32.
        assert (Hnz : big.get s0 big.big8 <> 0 /\ big.get s0 big.big32 <> 0).
        { revert E. destruct s0 as [m b8 b32 rw rr].
          unfold uncleReward, big.Div, big.Add, big.Sub, big.Mul. store_simpl.
          destruct (Z.eqb_spec b8 0); [discriminate|]. store_simpl.
          destruct (Z.eqb_spec b32 0); [discriminate|]. auto. }
        cbn [big.get] in Hnz. destruct Hnz as [N8 N32].
        split; intros [_ [H|H]]; contradiction.
      + split; [intros _ | reflexivity]. split; [discriminate|].
        revert E. destruct s0 as [m b8 b32 rw rr].
        unfold uncleReward, big.Div, big.Add, big.Sub, big.Mul. store_simpl.
        destruct (Z.eqb_spec b8 0); [auto|]. store_simpl.
        destruct (Z.eqb_spec b32 0); [auto|]. discriminate. }
  unfold AccumulateRewards.
  destruct (rangeUncles header uncles _) as [[s1 st1]|] eqn:E.
  - split; [discriminate|]. intros H. exfalso.
    match type of E with ?t = _ => assert (N : t = None) end.
    { apply Hloop. destruct s; exact H. }
    rewrite E in N. discriminate.
  - apply Hloop in E. destruct s. split; [intros _; exact E | reflexivity].
Qed.

(** X12: [getBlockEra] panics exactly for a zero era length; a result
    lies between 1 and the era length in absolute value, and every
    multiple of the era length, zero included, gets 1. *)
Theorem getBlockEra_bounds blockNum eraLength :
  (getBlockEra blockNum eraLength = None <-> eraLength = 0)
  /\ (forall era, getBlockEra blockNum eraLength = Some era ->
      1 <= era <= Z.abs eraLength)
  /\ (eraLength <> 0 -> forall k, getBlockEra (k * eraLength) eraLength = Some 1).
Proof.
  unfold getBlockEra, big.DivMod, big.emod, Big1. split; [|split].
  - destruct (Z.eqb_spec eraLength 0); split; intros H;
      (assumption || reflexivity || discriminate || contradiction).
  - intros era. destruct (Z.eqb_spec eraLength 0); [discriminate|].
    intros H. injection H as <-.
    pose proof (Z.mod_pos_bound blockNum (Z.abs eraLength) ltac:(lia)). lia.
  - intros Hne k. destruct (Z.eqb_spec eraLength 0); [contradiction|].
    do 2 f_equal. change 1 with (0 + 1). f_equal.
    replace (k * eraLength) with (k * Z.sgn eraLength * Z.abs eraLength).
    + apply Z.mod_mul. lia.
    + rewrite <- Z.mul_assoc. f_equal. rewrite Z.mul_comm. apply Z.abs_sgn.
Qed.

(** X13: the bloom of every receipt of a call that succeeds is the
    bloom [CreateBloom] makes of that one receipt, taken with its logs
    in place and its bloom still zero. *)
Theorem Process_receipt_blooms s p block db rs logs gas st s' :
  Process s p block db = Some ((rs, logs, gas, None), st, s') ->
  Forall (fun rc => Bloom_ rc = CreateBloom [set_Bloom rc zeroBloom]) rs.
Proof.
  intros H. apply Process_success in H. destruct H as (l & Hl & -> & _ & _).
  apply rangeTransactions_Next_fields in Hl.
  destruct Hl as (rs & Hrs & _ & Hbl & _). cbn in Hrs. now rewrite Hrs.
Qed.

(** X14: in a call that succeeds, the receipt at each index is the one
    of the transaction at that index: it has the transaction's hash,
    and the address of the created contract if the transaction has no
    recipient, the zero address if it has one. *)
Theorem Process_receipt_addresses s p block db rs logs gas st s' :
  Process s p block db = Some ((rs, logs, gas, None), st, s') ->
  Forall2 (fun tx rc =>
             TxHash rc = tx_Hash tx
             /\ ContractAddress rc
                = expectedAddress (config p) (block_Header block) tx)
          (block_Transactions block) rs.
Proof.
  intros H. apply Process_success in H. destruct H as (l & Hl & -> & _ & _).
  apply rangeTransactions_Next_fields in Hl.
  destruct Hl as (rs & Hrs & _ & _ & Had). cbn in Hrs. now rewrite Hrs.
Qed.

(** X15: when the engine reports no negative gas, every receipt of a
    call that succeeds has a gas used of at least zero, a cumulative gas
    of at least its gas used, and a cumulative gas of at most the total
    that [Process] returns. *)
Theorem Process_gas_bounds s p block db rs logs total st s' :
  engineGasNonNegative ->
  Process s p block db = Some ((rs, logs, Some total, None), st, s') ->
  0 <= total
  /\ Forall (fun rc => 0 <= GasUsed rc <= CumulativeGasUsed rc
                       /\ CumulativeGasUsed rc <= total) rs.
Proof.
  intros Hnn H. apply Process_success in H.
  destruct H as (l & Hl & -> & _ & Ht). injection Ht as ->.
  destruct (rangeTransactions_enter _ _ _ _ _ Hl) as (_ & Htot & Hcum & Hall).
  assert (Hpos : Forall (fun rc => 0 <= GasUsed rc) (receipts l)).
  { eapply Forall_impl; [|exact Hall]. cbn.
    intros rc (env & tx & g & ret & g' & st' & Hmsg). eapply Hnn, Hmsg. }
  assert (Hall0 : gasSum (receipts l) = gasSum (firstn (length (receipts l)) (receipts l))).
  { now rewrite firstn_all. }
  split.
  - rewrite Htot, Hall0.
    change 0 with (gasSum (firstn 0 (receipts l))).
    apply gasSum_firstn_mono; [exact Hpos | lia].
  - apply Forall_forall. intros rc Hin.
    apply In_nth_error in Hin. destruct Hin as (k & Hk).
    pose proof (Hcum _ _ Hk) as Hc.
    pose proof (gasSum_firstn_S _ _ _ Hk) as HS.
    pose proof (gasSum_firstn_mono _ Hpos 0 k ltac:(lia)) as H0.
    change (gasSum (firstn 0 (receipts l))) with 0 in H0.
    assert (Hlt : (S k <= length (receipts l))%nat).
    { apply Nat.le_succ_l. apply nth_error_Some. rewrite Hk. discriminate. }
    pose proof (gasSum_firstn_mono _ Hpos (S k) (length (receipts l)) Hlt) as H1.
    rewrite <- Hall0 in H1.
    rewrite Forall_forall in Hpos.
    assert (0 <= GasUsed rc) by (apply Hpos; eapply nth_error_In, Hk).
    lia.
Qed.

End Further.

(** ** The processor run on the sample chain *)

Import Sample.

Example run_two_transactions :
  option_map (fun x => (map CumulativeGasUsed (fst (fst (fst (fst (fst x))))), snd (fst x)))
             (run (Some 61) [transfer 0; creation 1] [uncle])
  = Some ([21000; 42000], [(carol, 4375000000000000000); (bob, 5156250000000000000)]).
Proof. reflexivity. Qed.

Example getBlockEra_examples :
  getBlockEra 12 5 = Some 3
  /\ getBlockEra 4999999 5000000 = Some 5000000
  /\ getBlockEra 5000000 5000000 = Some 1
  /\ getBlockEra (-12) 5 = Some 4
  /\ getBlockEra 12 0 = None.
Proof. repeat split. Qed.

Lemma Process_apply_error_aborts_witness :
  run (Some 61) [transfer 0; creation 1; transfer 2] [uncle]
  = Some (([], [], Some 42000, Some (engineError "gas limit reached")), [], big.init).
Proof.
  exact (proj1 (Process_apply_error_aborts big.init (processor (Some 61))
                  (block [transfer 0; creation 1; transfer 2] [uncle]) genesis
                  [transfer 0; creation 1] (transfer 2) [] _ _ _ _ _
                  eq_refl eq_refl eq_refl eq_refl)).
Defined.

Lemma Process_receipts_gas_witness :
  exists rs logs st s',
    run (Some 61) [transfer 0; creation 1] [uncle]
    = Some ((rs, logs, Some 42000, None), st, s')
    /\ map TxHash rs = [tx_Hash (transfer 0); tx_Hash (creation 1)]
    /\ map CumulativeGasUsed rs = [21000; 42000]
    /\ (forall i rc, nth_error rs i = Some rc ->
        CumulativeGasUsed rc = gasSum (firstn (S i) rs))
    /\ (forall i j rci rcj, (i <= j)%nat ->
        nth_error rs i = Some rci -> nth_error rs j = Some rcj ->
        CumulativeGasUsed rci <= CumulativeGasUsed rcj).
Proof.
  do 4 eexists.
  match goal with |- ?L = ?R /\ _ => assert (E : L = R) by reflexivity end.
  split; [exact E|].
  destruct (Process_receipts_gas big.init (processor (Some 61))
              (block [transfer 0; creation 1] [uncle]) genesis _ _ _ _ _ E)
    as (H1 & H2 & _ & _ & H5).
  split; [exact H1|]. split; [reflexivity|]. split; [exact H2|].
  apply H5. intros env tx g ret gas g' st'. cbn.
  destruct (21000 <=? g); intros H; [|discriminate].
  injection H as _ <- _ _. lia.
Defined.

Lemma AccumulateRewards_credits_witness :
  big.initialised big.init
  /\ exists s',
      AccumulateRewards big.init genesis header [uncle]
      = Some (s', [(carol, 4375000000000000000); (bob, 5156250000000000000)]).
Proof.
  split; [repeat split|].
  destruct (AccumulateRewards_credits big.init genesis header [uncle]
              (conj eq_refl (conj eq_refl eq_refl))) as (s' & _ & H & _).
  exists s'. exact (H uncle eq_refl eq_refl).
Defined.

Lemma Process_chain_id_mismatch_witness :
  run (Some 61) [transfer 0; protected 1; transfer 2] [uncle]
  = Some (([], [], None,
           Some (errorString
                   "Invalid transaction chain id. Current chain id: 61 tx chain id: 1")),
          [], big.init).
Proof.
  refine (proj1 (proj2 (Process_chain_id_mismatch big.init (processor (Some 61))
                   (block [transfer 0; protected 1; transfer 2] [uncle]) genesis
                   [transfer 0] (protected 1) [transfer 2] _ (Some 61) tt 61
                   eq_refl eq_refl eq_refl eq_refl eq_refl)) _ [transfer 2]).
  cbn. discriminate.
Defined.

(** On the chain whose rule changes its identifier, the transaction for
    chain 62 is rejected at block 50 against the rule's 61, and the
    error names 62 twice and 61 nowhere. *)
Lemma Process_chain_id_mismatch_counterexample :
  Forked.run
  = Some (([], [], None,
           Some (errorString
                   "Invalid transaction chain id. Current chain id: 62 tx chain id: 62")),
          Forked.genesis, big.init)
  /\ ~ Forked.namesBothCompared.
Proof.
  split; [reflexivity|].
  intros H.
  destruct (H big.init [] Forked.tx62 [] Forked.start (Some 61) tt 61
              eq_refl eq_refl eq_refl eq_refl eq_refl ltac:(discriminate))
    as (msg & E & H61 & _).
  vm_compute in E. injection E as <-.
  vm_compute in H61. discriminate.
Defined.

Lemma Process_chain_id_not_set_witness :
  run None [transfer 0; protected 1; transfer 2] [uncle]
  = Some (([], [], None,
           Some (errorString
                   ("ChainID is not set for EIP-155 in chain configuration at block number: 100. "
                    ++ LF ++ "  Tx ChainID: 1"))),
          [], big.init).
Proof.
  exact (Process_chain_id_not_set big.init (processor None)
           (block [transfer 0; protected 1; transfer 2] [uncle]) genesis
           [transfer 0] (protected 1) [transfer 2] _ None tt false
           eq_refl eq_refl eq_refl eq_refl (or_introl eq_refl)).
Defined.

Lemma Process_empty_block_witness :
  exists s',
    run None [] [] = Some (([], [], Some 0, None), [(bob, 5000000000000000000)], s')
    /\ package s' = package big.init.
Proof.
  exact (Process_empty_block big.init (processor None) (block [] []) genesis
           (conj eq_refl (conj eq_refl eq_refl)) eq_refl eq_refl).
Defined.

Lemma ApplyTransaction_contract_address_witness :
  exists rc1 rc2 logs1 logs2,
    ApplyTransaction (Some 61) tt 50000 genesis header (creation 7) 0
    = (inl (rc1, logs1, 21000), 29000, genesis, 21000)
    /\ ApplyTransaction (Some 61) tt 50000 genesis header (transfer 7) 0
       = (inl (rc2, logs2, 21000), 29000, genesis, 21000)
    /\ ContractAddress rc1 = Byte.x01 :: alice
    /\ ContractAddress rc2 = zeroAddress.
Proof.
  do 4 eexists. split; [reflexivity|]. split; [reflexivity|]. split.
  - exact (proj1 (ApplyTransaction_contract_address (Some 61) tt 50000 genesis header
                    (creation 7) 0 _ _ _ _ _ _ eq_refl) eq_refl).
  - exact (proj2 (ApplyTransaction_contract_address (Some 61) tt 50000 genesis header
                    (transfer 7) 0 _ _ _ _ _ _ eq_refl) bob eq_refl).
Defined.

Lemma Process_deterministic_witness :
  exists ret st s1,
    run (Some 61) [transfer 0; creation 1] [uncle] = Some (ret, st, s1)
    /\ package s1 = package big.init
    /\ Process s1 (processor (Some 61)) (block [transfer 0; creation 1] [uncle]) genesis
       = Some (ret, st, s1)
    /\ snd (fst ret) = Some 42000
    /\ st = [(carol, 4375000000000000000); (bob, 5156250000000000000)].
Proof.
  do 3 eexists.
  match goal with |- ?L = ?R /\ _ => assert (E : L = R) by reflexivity end.
  split; [exact E|].
  destruct (Process_deterministic big.init (processor (Some 61))
              (block [transfer 0; creation 1] [uncle]) genesis _ _ _ E)
    as (H1 & H2 & _).
  split; [exact H1|]. split; [exact H2|]. split; reflexivity.
Defined.

Lemma Process_error_gas_witness :
  (exists err,
      run (Some 61) [transfer 0; protected 1] [] = Some (([], [], None, Some err), [], big.init))
  /\ run (Some 61) [transfer 0; creation 1; transfer 2] []
     = Some (([], [], Some 42000, Some (engineError "gas limit reached")), [], big.init).
Proof.
  split.
  - refine (proj1 (Process_error_gas big.init (processor (Some 61))
                     (block [transfer 0; protected 1] []) genesis
                     [transfer 0] (protected 1) [] _ eq_refl eq_refl)
                  (Some 61) tt true eq_refl eq_refl _).
    right. right. cbn. discriminate.
  - exact (proj2 (Process_error_gas big.init (processor (Some 61))
                    (block [transfer 0; creation 1; transfer 2] []) genesis
                    [transfer 0; creation 1] (transfer 2) [] _ eq_refl eq_refl)
                 (engineError "gas limit reached") _ _ _ eq_refl eq_refl).
Defined.

Lemma getBlockEra_remainder_witness :
  5000000 <> 0
  /\ getBlockEra 12345678 5000000 = Some 2345679
  /\ getBlockEra (12345678 + 3 * 5000000) 5000000 = getBlockEra 12345678 5000000.
Proof.
  assert (H : 5000000 <> 0) by discriminate.
  split; [exact H|]. split.
  - exact (proj1 (proj2 (getBlockEra_remainder 12345678 5000000 H)) eq_refl).
  - exact (proj2 (proj2 (getBlockEra_remainder 12345678 5000000 H)) 3).
Defined.

Lemma Process_logs_of_receipts_witness :
  exists rs logs st s',
    run (Some 61) [transfer 0; creation 1] [uncle]
    = Some ((rs, logs, Some 42000, None), st, s')
    /\ logs = concat (map Logs rs)
    /\ logs = [tx_Hash (transfer 0); tx_Hash (creation 1)].
Proof.
  do 4 eexists.
  match goal with |- ?L = ?R /\ _ => assert (E : L = R) by reflexivity end.
  split; [exact E|]. split; [|reflexivity].
  exact (Process_logs_of_receipts _ _ _ _ _ _ _ _ _ E).
Defined.

Lemma Process_all_or_nothing_witness :
  exists rs logs gas err st s',
    run (Some 61) [transfer 0; creation 1; transfer 2] [uncle]
    = Some ((rs, logs, gas, err), st, s')
    /\ ((err = None /\ length rs = 3%nat /\ gas = Some (gasSum rs))
        \/ (exists e, err = Some e /\ rs = [] /\ logs = [] /\ s' = big.init)).
Proof.
  do 6 eexists.
  match goal with |- ?L = ?R /\ _ => assert (E : L = R) by reflexivity end.
  split; [exact E|].
  exact (Process_all_or_nothing _ _ _ _ _ _ _ _ _ _ E).
Defined.

Lemma Process_error_origin_witness :
  exists pre tx post l,
    [transfer 0; creation 1; transfer 2] = pre ++ tx :: post
    /\ rangeTransactions (processor (Some 61))
         (block [transfer 0; creation 1; transfer 2] [uncle]) header 0 pre
         (enter (block [transfer 0; creation 1; transfer 2] [uncle]) genesis)
       = Next l
    /\ ((checkProtected (processor (Some 61))
           (block [transfer 0; creation 1; transfer 2] [uncle]) tx
         = Some (engineError "gas limit reached")
         /\ Some 42000 = None /\ genesis = statedb l)
        \/ (checkProtected (processor (Some 61))
              (block [transfer 0; creation 1; transfer 2] [uncle]) tx = None
            /\ Some 42000 = Some (gasSum (receipts l))
            /\ exists gp' usedGas',
                ApplyTransaction (Some 61) tt (gp l)
                  (StartRecord (statedb l) (tx_Hash tx) [Byte.xbb]
                               (Z.of_nat (length pre)))
                  header tx (totalUsedGas l)
                = (inr (engineError "gas limit reached"), gp', genesis, usedGas'))).
Proof.
  exact (Process_error_origin big.init (processor (Some 61))
           (block [transfer 0; creation 1; transfer 2] [uncle]) genesis
           [] [] (Some 42000) (engineError "gas limit reached") genesis big.init
           eq_refl).
Defined.

Lemma Process_fail_fast_witness :
  run (Some 61) [transfer 0; protected 1] []
  = run (Some 61) [transfer 0; protected 1; transfer 2] [uncle].
Proof.
  transitivity
    (Some (([], [], None,
            Some (errorString
                    "Invalid transaction chain id. Current chain id: 61 tx chain id: 1")),
           genesis, big.init) : option (Returned * StateDB * big.store));
    [|reflexivity].
  exact (Process_fail_fast big.init (processor (Some 61))
           (block [transfer 0; protected 1; transfer 2] [uncle]) genesis
           [transfer 0] (protected 1) [transfer 2] _ _ _
           eq_refl eq_refl eq_refl [] []).
Defined.

Lemma Process_rewards_after_transactions_witness :
  exists rs logs st s' l,
    run (Some 61) [transfer 0; creation 1] [uncle]
    = Some ((rs, logs, Some 42000, None), st, s')
    /\ rangeTransactions (processor (Some 61)) (block [transfer 0; creation 1] [uncle])
         header 0 [transfer 0; creation 1]
         (enter (block [transfer 0; creation 1] [uncle]) genesis) = Next l
    /\ st = AddBalance (creditUncles header [uncle] (statedb l)) bob
                       (baseReward + 1 * (baseReward / 32))
    /\ st = [(carol, 4375000000000000000); (bob, 5156250000000000000)].
Proof.
  do 4 eexists.
  match goal with
  | |- exists l, ?L = ?R /\ _ => assert (E : L = R) by reflexivity
  end.
  destruct (Process_rewards_after_transactions big.init (processor (Some 61))
              (block [transfer 0; creation 1] [uncle]) genesis _ _ _ _ _
              (conj eq_refl (conj eq_refl eq_refl)) E)
    as (l & Hl & Hst & _).
  exists l. split; [exact E|]. split; [exact Hl|]. split; [exact Hst | reflexivity].
Defined.

Lemma Process_total_is_last_cumulative_witness :
  exists rc logs st s',
    run (Some 61) [creation 1] [uncle] = Some (([] ++ [rc], logs, Some 21000, None), st, s')
    /\ Some 21000 = Some (CumulativeGasUsed rc).
Proof.
  do 4 eexists.
  match goal with |- ?L = ?R /\ _ => assert (E : L = R) by reflexivity end.
  split; [exact E|].
  exact (Process_total_is_last_cumulative _ _ _ _ _ _ _ _ _ _ E).
Defined.

Lemma Process_cumulative_steps_witness :
  exists rs logs st s',
    run (Some 61) [transfer 0; creation 1] [uncle]
    = Some ((rs, logs, Some 42000, None), st, s')
    /\ (forall rc, nth_error rs 0 = Some rc -> CumulativeGasUsed rc = GasUsed rc)
    /\ (forall i a b,
        nth_error rs i = Some a -> nth_error rs (S i) = Some b ->
        CumulativeGasUsed b = CumulativeGasUsed a + GasUsed b).
Proof.
  do 4 eexists.
  match goal with |- ?L = ?R /\ _ => assert (E : L = R) by reflexivity end.
  split; [exact E|].
  exact (Process_cumulative_steps _ _ _ _ _ _ _ _ _ E).
Defined.

Lemma Process_prefix_witness :
  exists rs logs st s' st1 s1,
    run (Some 61) [transfer 0; creation 1] [uncle]
    = Some ((rs, logs, Some 42000, None), st, s')
    /\ run (Some 61) [transfer 0] [uncle]
       = Some ((firstn 1 rs, concat (map Logs (firstn 1 rs)),
                Some (gasSum (firstn 1 rs)), None), st1, s1).
Proof.
  do 4 eexists.
  match goal with
  | |- exists st1 s1, ?L = ?R /\ _ => assert (E : L = R) by reflexivity
  end.
  destruct (Process_prefix big.init (processor (Some 61))
              (block [transfer 0; creation 1] [uncle]) genesis
              [transfer 0] [creation 1] _ _ _ _ _
              (conj eq_refl (conj eq_refl eq_refl)) eq_refl E)
    as (st1 & s1 & H).
  exists st1, s1. split; [exact E | exact H].
Defined.

Lemma Process_unprotected_gas_witness :
  exists rs logs gas err st s',
    run None [transfer 0; creation 1; transfer 2] [uncle]
    = Some ((rs, logs, gas, err), st, s')
    /\ exists g, gas = Some g.
Proof.
  do 6 eexists.
  match goal with |- ?L = ?R /\ _ => assert (E : L = R) by reflexivity end.
  split; [exact E|].
  refine (Process_unprotected_gas _ _ _ _ _ _ _ _ _ _ _ E).
  repeat constructor.
Defined.

Lemma AccumulateRewards_uncle_age_witness :
  exists s',
    AccumulateRewards big.init genesis header [uncle]
    = Some (s', [(carol, (8 - 1) * (baseReward / 8));
                 (bob, baseReward + baseReward / 32)]).
Proof.
  exact (proj1 (AccumulateRewards_uncle_age big.init genesis header uncle 1
                  (conj eq_refl (conj eq_refl eq_refl)) eq_refl)).
Defined.

Lemma Process_receipt_blooms_witness :
  exists rs logs st s',
    run (Some 61) [transfer 0; creation 1] [uncle]
    = Some ((rs, logs, Some 42000, None), st, s')
    /\ Forall (fun rc => Bloom_ rc = CreateBloom [set_Bloom rc zeroBloom]) rs.
Proof.
  do 4 eexists.
  match goal with |- ?L = ?R /\ _ => assert (E : L = R) by reflexivity end.
  split; [exact E|].
  exact (Process_receipt_blooms _ _ _ _ _ _ _ _ _ E).
Defined.

Lemma Process_receipt_addresses_witness :
  exists rs logs st s',
    run (Some 61) [transfer 0; creation 1] [uncle]
    = Some ((rs, logs, Some 42000, None), st, s')
    /\ Forall2 (fun tx rc =>
                  TxHash rc = tx_Hash tx
                  /\ ContractAddress rc
                     = expectedAddress (Some 61) header tx)
               [transfer 0; creation 1] rs
    /\ map ContractAddress rs = [zeroAddress; Byte.x01 :: alice].
Proof.
  do 4 eexists.
  match goal with |- ?L = ?R /\ _ => assert (E : L = R) by reflexivity end.
  split; [exact E|]. split; [|reflexivity].
  exact (Process_receipt_addresses _ _ _ _ _ _ _ _ _ E).
Defined.

Lemma Process_gas_bounds_witness :
  exists rs logs st s',
    run (Some 61) [transfer 0; creation 1] [uncle]
    = Some ((rs, logs, Some 42000, None), st, s')
    /\ 0 <= 42000
    /\ Forall (fun rc => 0 <= GasUsed rc <= CumulativeGasUsed rc
                         /\ CumulativeGasUsed rc <= 42000) rs.
Proof.
  do 4 eexists.
  match goal with |- ?L = ?R /\ _ => assert (E : L = R) by reflexivity end.
  split; [exact E|].
  refine (Process_gas_bounds _ _ _ _ _ _ _ _ _ _ E).
  intros env tx g ret gas g' st'. cbn.
  destruct (21000 <=? g); intros H; [|discriminate].
  injection H as _ <- _ _. lia.
Defined.
